(** * Verification of the image-editing core of task1/resolve

    Shallow embedding of
    - adapters/image_processor.py   (PillowImageProcessor)
    - adapters/histogram_service.py (MatplotlibHistogramService.calculate_histogram)
    - domain/models.py              (ImageProcessingParameters, Image)
    - services/image_service.py     (ImageService)

    Conventions of the model:
    - a numpy [uint8] array of shape (H, W) or (H, W, C) is a list of H rows,
      each of W samples (a sample is a [Z], a pixel of a 3-D array a [list Z]);
      the width is stored so that arrays with no rows keep their shape;
    - Python floats are modelled as exact rationals [Q]; all concrete inputs
      used below are exact in binary floating point as well;
    - a raised exception is [None], a returned value [Some v]. *)

From Stdlib Require Import List ZArith QArith Qround Qminmax Lia Bool.
Import ListNotations.

(* ------------------------------------------------------------------ *)
(** ** numpy arrays *)

Record grid (A : Type) := mk_grid { gwidth : nat; grows : list (list A) }.
Arguments mk_grid {A} _ _.
Arguments gwidth {A} _.
Arguments grows {A} _.

(** Every row has the declared width (numpy arrays are rectangular). *)
Definition grid_wf {A} (g : grid A) : Prop :=
  Forall (fun r => length r = gwidth g) (grows g).

(** [ndarray]: a 2-D array (grayscale) or a 3-D array with [channels] samples
    per pixel. *)
Inductive ndarray :=
| Arr2 (g : grid Z)
| Arr3 (channels : nat) (g : grid (list Z)).

Definition ndim (a : ndarray) : nat :=
  match a with Arr2 _ => 2 | Arr3 _ _ => 3 end.

Definition height (a : ndarray) : nat :=
  match a with Arr2 g => length (grows g) | Arr3 _ g => length (grows g) end.

Definition width (a : ndarray) : nat :=
  match a with Arr2 g => gwidth g | Arr3 _ g => gwidth g end.

Definition sample_ok (x : Z) : bool := (0 <=? x)%Z && (x <=? 255)%Z.

(** A well-formed [uint8] array: rectangular, every pixel of a 3-D array has
    [channels] samples, every sample in [0,255]. *)
Definition ndarray_wf (a : ndarray) : Prop :=
  match a with
  | Arr2 g => grid_wf g /\ Forall (Forall (fun x => sample_ok x = true)) (grows g)
  | Arr3 c g => grid_wf g /\
      Forall (Forall (fun px => length px = c /\
                                Forall (fun x => sample_ok x = true) px)) (grows g)
  end.

(** Column-wise regrouping of rows (numpy [transpose] of the two first axes). *)
Fixpoint zip_cons {A} (r : list A) (m : list (list A)) : list (list A) :=
  match r, m with
  | x :: r', c :: m' => (x :: c) :: zip_cons r' m'
  | _, _ => []
  end.

Fixpoint transpose {A} (w : nat) (m : list (list A)) : list (list A) :=
  match m with
  | [] => repeat [] w
  | r :: rs => zip_cons r (transpose w rs)
  end.

(** [numpy.rot90(m, k)] on the axes (0, 1):
<<
    k %= 4
    if k == 0: return m[:]
    if k == 2: return flip(flip(m, axes[0]), axes[1])
    if k == 1: return transpose(flip(m, axes[1]), axes_list)
    else:      return flip(transpose(m, axes_list), axes[1])
>> *)
Definition np_rot90 {A} (k : Z) (g : grid A) : grid A :=
  let k := (k mod 4)%Z in
  if (k =? 0)%Z then g
  else if (k =? 2)%Z then mk_grid (gwidth g) (map (@rev A) (rev (grows g)))
  else if (k =? 1)%Z then
    mk_grid (length (grows g)) (transpose (gwidth g) (map (@rev A) (grows g)))
  else mk_grid (length (grows g)) (map (@rev A) (transpose (gwidth g) (grows g))).

Definition rot90_array (k : Z) (a : ndarray) : ndarray :=
  match a with
  | Arr2 g => Arr2 (np_rot90 k g)
  | Arr3 c g => Arr3 c (np_rot90 k g)
  end.

(** [PillowImageProcessor.rotate_image]:
<<
    if angle == 0: return image_data
    if angle > 0: angle *= 1
    angle %= 360
    if angle == 90: return np.rot90(image_data, k=1)
    elif angle == 180: return np.rot90(image_data, k=2)
    elif angle == 270: return np.rot90(image_data, k=3)
    elif angle == 360: return np.rot90(image_data, k=4)
    else: raise ValueError(...)
>>
    Python's [%] with a positive modulus is [Z.modulo]. *)
Definition rotate_image (a : ndarray) (angle : Z) : option ndarray :=
  if (angle =? 0)%Z then Some a
  else
    let angle := (angle mod 360)%Z in
    if (angle =? 90)%Z then Some (rot90_array 1 a)
    else if (angle =? 180)%Z then Some (rot90_array 2 a)
    else if (angle =? 270)%Z then Some (rot90_array 3 a)
    else if (angle =? 360)%Z then Some (rot90_array 4 a)
    else None.

Definition obind {A B} (o : option A) (f : A -> option B) : option B :=
  match o with Some x => f x | None => None end.

Definition map_grid {A B} (f : A -> B) (g : grid A) : grid B :=
  mk_grid (gwidth g) (map (map f) (grows g)).

(** [np.clip(v, 0, 255).astype(np.uint8)]: clipping then truncation. *)
Definition clip_u8 (v : Q) : Z :=
  Qfloor (Qmax 0 (Qmin v 255)).

(* ------------------------------------------------------------------ *)
(** ** numpy paths of [PillowImageProcessor] *)

(** [np.dot(px[:3], [0.2989, 0.5870, 0.1140]).astype(np.uint8)] *)
Definition np_luma (px : list Z) : Z :=
  Qfloor (inject_Z (nth 0 px 0%Z) * (2989 # 10000)
          + inject_Z (nth 1 px 0%Z) * (5870 # 10000)
          + inject_Z (nth 2 px 0%Z) * (1140 # 10000)).

(** [PillowImageProcessor.convert_to_grayscale] *)
Definition np_convert_to_grayscale (a : ndarray) : option ndarray :=
  match a with
  | Arr2 _ => Some a
  | Arr3 c g =>
      if (c =? 3)%nat || (c =? 4)%nat then Some (Arr2 (map_grid np_luma g))
      else None
  end.

(** Grayscale branch of [adjust_brightness]:
    [np.clip(image_data.astype(np.float32) * factor, 0, 255).astype(np.uint8)]. *)
Definition np_brightness_gray (factor : Q) (g : grid Z) : grid Z :=
  map_grid (fun x => clip_u8 (inject_Z x * factor)) g.

Definition np_mean (xs : list Z) : Q :=
  match xs with
  | [] => 0
  | _ => inject_Z (fold_right Z.add 0%Z xs) / inject_Z (Z.of_nat (length xs))
  end.

(** Grayscale branch of [adjust_contrast]:
    [np.clip((image_data - mean) * contrast + mean, 0, 255).astype(np.uint8)]. *)
Definition np_contrast_gray (contrast : Q) (g : grid Z) : grid Z :=
  let mean := np_mean (concat (grows g)) in
  map_grid (fun x => clip_u8 ((inject_Z x - mean) * contrast + mean)) g.

(* ------------------------------------------------------------------ *)
(** ** Pillow's [ImageEnhance] (external library used by the colour paths)

    [PILImage.fromarray] maps (H,W,2), (H,W,3), (H,W,4) uint8 arrays to the
    modes LA, RGB, RGBA and raises for other channel counts.
    [enhancer.enhance(f)] is [Image.blend(degenerate, image, f)], which computes
    per sample [in1 + f * (in2 - in1)], clipped to [0,255] and truncated
    (libImaging/Blend.c).  The degenerate image keeps the alpha band of the
    image; its colour bands are black (Brightness), the rounded mean luma
    (Contrast) or the pixel's own luma (Color).  RGB to L conversion is
    [(R*19595 + G*38470 + B*7471 + 0x8000) >> 16] (libImaging/Convert.c). *)

Definition pil_mode_ok (c : nat) : bool := (c =? 2)%nat || (c =? 3)%nat || (c =? 4)%nat.

(** number of colour bands before the alpha band *)
Definition pil_color_bands (c : nat) : nat := if (c =? 2)%nat then 1 else 3.

Definition pil_luma (c : nat) (px : list Z) : Z :=
  if (c =? 2)%nat then nth 0 px 0%Z
  else Z.shiftr (nth 0 px 0 * 19595 + nth 1 px 0 * 38470 + nth 2 px 0 * 7471 + 32768)%Z 16.

Definition pil_blend_sample (d x : Z) (f : Q) : Z :=
  clip_u8 (inject_Z d + f * (inject_Z x - inject_Z d)).

Definition pil_degenerate (c : nat) (dv : Z) (px : list Z) : list Z :=
  repeat dv (pil_color_bands c) ++ skipn (pil_color_bands c) px.

Fixpoint zip_with {A B C} (h : A -> B -> C) (l1 : list A) (l2 : list B) : list C :=
  match l1, l2 with
  | a :: l1', b :: l2' => h a b :: zip_with h l1' l2'
  | _, _ => []
  end.

Definition pil_blend_pixel (c : nat) (dv : Z) (f : Q) (px : list Z) : list Z :=
  zip_with (fun d x => pil_blend_sample d x f) (pil_degenerate c dv px) px.

Inductive enhancer := Brightness | Contrast | Color.

(** [int(ImageStat.Stat(image.convert("L")).mean[0] + 0.5)]; [ImageStat]
    gives the mean 0 for an image with no pixels (a band whose count is 0). *)
Definition pil_mean_luma (c : nat) (g : grid (list Z)) : Z :=
  let ls := map (pil_luma c) (concat (grows g)) in
  match ls with
  | [] => 0%Z
  | _ => Qfloor (inject_Z (fold_right Z.add 0%Z ls) / inject_Z (Z.of_nat (length ls))
                 + (1 # 2))
  end.

Definition pil_enhance (e : enhancer) (c : nat) (g : grid (list Z)) (f : Q)
  : option ndarray :=
  if negb (pil_mode_ok c) then None
  else match e with
  | Brightness => Some (Arr3 c (map_grid (fun px => pil_blend_pixel c 0 f px) g))
  | Color => Some (Arr3 c (map_grid (fun px => pil_blend_pixel c (pil_luma c px) f px) g))
  | Contrast => Some (Arr3 c (map_grid (fun px => pil_blend_pixel c (pil_mean_luma c g) f px) g))
  end.

(* ------------------------------------------------------------------ *)
(** ** [PillowImageProcessor] *)

(** [PillowImageProcessor.adjust_brightness]: [factor = 1.0 + brightness / 100.0]. *)
Definition np_adjust_brightness (a : ndarray) (brightness : Q) : option ndarray :=
  let factor := 1 + brightness / 100 in
  match a with
  | Arr2 g => Some (Arr2 (np_brightness_gray factor g))
  | Arr3 c g => pil_enhance Brightness c g factor
  end.

(** [PillowImageProcessor.adjust_contrast] *)
Definition np_adjust_contrast (a : ndarray) (contrast : Q) : option ndarray :=
  match a with
  | Arr2 g => Some (Arr2 (np_contrast_gray contrast g))
  | Arr3 c g => pil_enhance Contrast c g contrast
  end.

(** [PillowImageProcessor.adjust_saturation] *)
Definition np_adjust_saturation (a : ndarray) (saturation : Q) : option ndarray :=
  match a with
  | Arr2 _ => Some a
  | Arr3 c g => pil_enhance Color c g saturation
  end.

(** [PillowImageProcessor.apply_linear_correction]:
    [np.clip(image_data / 255.0 * factor, 0, 1) * 255] then [astype(np.uint8)]. *)
Definition np_linear_sample (factor : Q) (x : Z) : Z :=
  Qfloor (Qmax 0 (Qmin (inject_Z x / 255 * factor) 1) * 255).

Definition np_apply_linear_correction (a : ndarray) (factor : Q) : option ndarray :=
  match a with
  | Arr2 g => Some (Arr2 (map_grid (np_linear_sample factor) g))
  | Arr3 c g => Some (Arr3 c (map_grid (map (np_linear_sample factor)) g))
  end.

(* ------------------------------------------------------------------ *)
(** ** [IImageProcessor]: the interface [ImageService] is written against *)

Record processor := mk_processor {
  convert_to_grayscale : ndarray -> option ndarray;
  adjust_brightness : ndarray -> Q -> option ndarray;
  adjust_contrast : ndarray -> Q -> option ndarray;
  adjust_saturation : ndarray -> Q -> option ndarray;
  rotate : ndarray -> Z -> option ndarray }.

Definition pillow_processor : processor :=
  mk_processor np_convert_to_grayscale np_adjust_brightness np_adjust_contrast
    np_adjust_saturation rotate_image.

(* ------------------------------------------------------------------ *)
(** ** domain/models.py *)

(** [ImageProcessingParameters] *)
Record params := mk_params {
  brightness : Q; contrast : Q; saturation : Q; rotation : Z }.

Definition default_params : params := mk_params 0 1 1 0.

Definition Qle_b (x y : Q) : bool := Qle_bool x y.

(** [ImageProcessingParameters.validate] *)
Definition validate (p : params) : bool :=
  Qle_b (-100) (brightness p) && Qle_b (brightness p) 100 &&
  Qle_b 0 (contrast p) && Qle_b (contrast p) 3 &&
  Qle_b 0 (saturation p) && Qle_b (saturation p) 3 &&
  existsb (Z.eqb (rotation p)) [0; 90; 180; 270]%Z.

(** [Image]; [info_grayscale] is [info.color_model == ColorModel.GRAYSCALE]. *)
Record image := mk_image {
  original_data : ndarray;
  current_data : ndarray;
  info_grayscale : bool;
  is_modified : bool }.

(** [Image.__init__] *)
Definition new_image (data : ndarray) (info_gray : bool) : image :=
  mk_image data data info_gray false.

(** [Image.update_data] *)
Definition update_data (img : image) (d : ndarray) : image :=
  mk_image (original_data img) d (info_grayscale img) true.

(** [Image.reset_to_original] *)
Definition image_reset_to_original (img : image) : image :=
  mk_image (original_data img) (original_data img) (info_grayscale img) false.

(** [Image.is_grayscale] *)
Definition is_grayscale (img : image) : bool :=
  (ndim (current_data img) =? 2)%nat || info_grayscale img.

(* ------------------------------------------------------------------ *)
(** ** services/image_service.py: [ImageService] as explicit state passing *)

Record service := mk_service {
  current_image : option image;
  is_gray : bool;
  current_processing_params : params;
  base_image_data : option ndarray }.

Definition set_base (s : service) (b : ndarray) : service :=
  mk_service (current_image s) (is_gray s) (current_processing_params s) (Some b).

Definition set_image (s : service) (img : image) : service :=
  mk_service (Some img) (is_gray s) (current_processing_params s) (base_image_data s).

Definition empty_service : service := mk_service None false default_params None.

Section Service.

Variable proc : processor.

(** [load_image]; [loaded] is what the repository returned. *)
Definition load_image (loaded : option image) (s : service) : bool * service :=
  match loaded with
  | Some img => (true, mk_service (Some img) false default_params (Some (original_data img)))
  | None => (false, s)
  end.

(** [convert_to_grayscale] *)
Definition service_convert_to_grayscale (s : service) : bool * service :=
  match current_image s with
  | None => (false, s)
  | Some img =>
      match convert_to_grayscale proc (current_data img) with
      | Some d => (true, mk_service (Some (update_data img d)) true
                           (current_processing_params s) (base_image_data s))
      | None => (false, s)
      end
  end.

(** The guarded stages of the [try] block; a stage that raises makes the whole
    call return [False] from the state reached so far. *)
Definition stage_if (cond : bool) (op : ndarray -> option ndarray) (d : ndarray)
  : option ndarray :=
  if cond then op d else Some d.

(** [apply_processing_parameters] *)
Definition apply_processing_parameters (p : params) (s : service) : bool * service :=
  match current_image s with
  | None => (false, s)
  | Some img =>
    if negb (validate p) then (false, s) else
    let base := match base_image_data s with Some b => b | None => current_data img end in
    let s1 := set_base s base in
    let processed :=
      obind (stage_if (negb (Qeq_bool (brightness p) 0))
               (fun d => adjust_brightness proc d (brightness p)) base) (fun d1 =>
      obind (stage_if (negb (Qeq_bool (contrast p) 1))
               (fun d => adjust_contrast proc d (contrast p)) d1) (fun d2 =>
      stage_if (negb (is_grayscale img) && negb (Qeq_bool (saturation p) 1))
               (fun d => adjust_saturation proc d (saturation p)) d2)) in
    match processed with
    | None => (false, s1)
    | Some d3 =>
      let rotation_delta := (rotation p - rotation (current_processing_params s))%Z in
      let rotated :=
        if negb (rotation_delta =? 0)%Z then
          match rotate proc d3 rotation_delta with
          | None => None
          | Some d4 =>
              match rotate proc base rotation_delta with
              | None => None
              | Some b' => Some (d4, set_base s1 b')
              end
          end
        else Some (d3, s1) in
      match rotated with
      | None => (false, s1)
      | Some (d4, s2) =>
        match stage_if (is_gray s) (convert_to_grayscale proc) d4 with
        | None => (false, s2)
        | Some d5 =>
            (true, mk_service (Some (update_data img d5)) (is_gray s2)
                     (mk_params (brightness p) (contrast p) (saturation p) (rotation p))
                     (base_image_data s2))
        end
      end
    end
  end.

(** The common body of [apply_linear_correction],
    [apply_logarithmic_correction] and [apply_gamma_correction], which differ
    only in the processor method [correct] they call. *)
Definition apply_correction (correct : ndarray -> option ndarray) (s : service)
  : bool * service :=
  match current_image s with
  | None => (false, s)
  | Some img =>
    let base_data := match base_image_data s with Some b => b | None => current_data img end in
    match correct base_data with
    | None => (false, s)
    | Some corrected =>
      let s1 := set_base s corrected in
      let cp := current_processing_params s1 in
      if negb (Qeq_bool (brightness cp) 0) || negb (Qeq_bool (contrast cp) 1)
         || negb (Qeq_bool (saturation cp) 1)
      then (true, snd (apply_processing_parameters cp s1))
      else (true, set_image s1 (update_data img corrected))
    end
  end.

(** [reset_to_original] *)
Definition reset_to_original (s : service) : bool * service :=
  match current_image s with
  | None => (false, s)
  | Some img =>
      let img' := image_reset_to_original img in
      (true, mk_service (Some img') false default_params (Some (original_data img')))
  end.

(** Operations of the service that edit the image after loading. *)
Inductive edit :=
| EditGrayscale
| EditParams (p : params)
| EditCorrection (correct : ndarray -> option ndarray)
| EditReset.

Definition run_edit (e : edit) (s : service) : service :=
  match e with
  | EditGrayscale => snd (service_convert_to_grayscale s)
  | EditParams p => snd (apply_processing_parameters p s)
  | EditCorrection f => snd (apply_correction f s)
  | EditReset => snd (reset_to_original s)
  end.

Fixpoint run_edits (es : list edit) (s : service) : service :=
  match es with
  | [] => s
  | e :: es' => run_edits es' (run_edit e s)
  end.

End Service.

(** The order of stages as the specification words it (grayscale forcing
    first, then brightness, contrast, saturation, rotation), with the same
    guards as the code; compared with [apply_processing_parameters]. *)
Definition spec_order_current (proc : processor) (p : params) (s : service)
  : option ndarray :=
  match current_image s with
  | None => None
  | Some img =>
    let base := match base_image_data s with Some b => b | None => current_data img end in
    obind (stage_if (is_gray s) (convert_to_grayscale proc) base) (fun d0 =>
    obind (stage_if (negb (Qeq_bool (brightness p) 0))
             (fun d => adjust_brightness proc d (brightness p)) d0) (fun d1 =>
    obind (stage_if (negb (Qeq_bool (contrast p) 1))
             (fun d => adjust_contrast proc d (contrast p)) d1) (fun d2 =>
    obind (stage_if (negb (is_grayscale img) && negb (Qeq_bool (saturation p) 1))
             (fun d => adjust_saturation proc d (saturation p)) d2) (fun d3 =>
    let rotation_delta := (rotation p - rotation (current_processing_params s))%Z in
    stage_if (negb (rotation_delta =? 0)%Z) (fun d => rotate proc d rotation_delta) d3))))
  end.

(* ------------------------------------------------------------------ *)
(** ** adapters/histogram_service.py *)

(** Bin [b] of [np.histogram(x, bins=256, range=(0, 256))]: the edges are
    0, 1, ..., 256 and the last bin is closed on the right. *)
Definition in_bin (b : nat) (x : Z) : bool :=
  let zb := Z.of_nat b in
  ((zb <=? x)%Z && (x <? zb + 1)%Z) || ((b =? 255)%nat && (x =? 256)%Z).

Definition np_histogram256 (xs : list Z) : list nat :=
  map (fun b => length (filter (in_bin b) xs)) (seq 0 256).

(** [Histogram] *)
Record histogram := mk_histogram {
  red_channel : option (list nat);
  green_channel : option (list nat);
  blue_channel : option (list nat);
  grayscale : option (list nat) }.

(** [image_data[:,:,k].flatten()] *)
Definition channel_samples (k : nat) (g : grid (list Z)) : list Z :=
  concat (map (map (fun px => nth k px 0%Z)) (grows g)).

(** [MatplotlibHistogramService.calculate_histogram] *)
Definition calculate_histogram (a : ndarray) : option histogram :=
  match a with
  | Arr2 g => Some (mk_histogram None None None (Some (np_histogram256 (concat (grows g)))))
  | Arr3 c g =>
      if (3 <=? c)%nat then
        Some (mk_histogram (Some (np_histogram256 (channel_samples 0 g)))
                           (Some (np_histogram256 (channel_samples 1 g)))
                           (Some (np_histogram256 (channel_samples 2 g))) None)
      else None
  end.

Definition sum_nat (l : list nat) : nat := fold_right Nat.add 0%nat l.

(** [x is not None] *)
Definition is_not_none {A} (o : option A) : bool :=
  match o with Some _ => true | None => false end.

(** [Histogram.has_color_channels]:
    [all([red is not None, green is not None, blue is not None])] *)
Definition has_color_channels (h : histogram) : bool :=
  is_not_none (red_channel h) && is_not_none (green_channel h) && is_not_none (blue_channel h).

(* ------------------------------------------------------------------ *)
(** ** Further members of [ImageService] *)

(** [ImageService.get_histogram] with [MatplotlibHistogramService] *)
Definition get_histogram (s : service) : option histogram :=
  match current_image s with
  | None => None
  | Some img => calculate_histogram (current_data img)
  end.

(** [ImageService.get_original_histogram] *)
Definition get_original_histogram (s : service) : option histogram :=
  match current_image s with
  | None => None
  | Some img => calculate_histogram (original_data img)
  end.

(** [ImageService.reset_processing_params] *)
Definition reset_processing_params (s : service) : bool * service :=
  match current_image s with
  | None => (false, s)
  | Some _ => (true, mk_service (current_image s) (is_gray s) default_params (base_image_data s))
  end.

(** [ImageService.apply_linear_correction(factor)] with [PillowImageProcessor] *)
Definition apply_linear_correction (factor : Q) (s : service) : bool * service :=
  apply_correction pillow_processor (fun a => np_apply_linear_correction a factor) s.

(** [image_data.shape] *)
Definition shape (a : ndarray) : list nat :=
  match a with
  | Arr2 g => [length (grows g); gwidth g]
  | Arr3 c g => [length (grows g); gwidth g; c]
  end.

(** Arrays [PillowImageRepository.load_image] returns: an image whose mode is
    not RGB, RGBA or L is converted to RGB first, so [np.array] gives a 2-D
    array (L) or a 3-D array with 3 (RGB) or 4 (RGBA) samples per pixel. *)
Definition repository_array (a : ndarray) : bool :=
  match a with
  | Arr2 _ => true
  | Arr3 c _ => (c =? 3)%nat || (c =? 4)%nat
  end.

(** A correction edit maps such arrays to such arrays.  The linear,
    logarithmic and gamma corrections of [PillowImageProcessor] work sample by
    sample and keep the shape. *)
Definition edit_keeps_repository_arrays (e : edit) : Prop :=
  match e with
  | EditCorrection correct =>
      forall a a', correct a = Some a' -> repository_array a = true -> repository_array a' = true
  | _ => True
  end.

(** A loaded state whose base and original data are repository arrays. *)
Definition repository_state (s : service) : Prop :=
  exists img b, current_image s = Some img /\ base_image_data s = Some b /\
    repository_array b = true /\ repository_array (original_data img) = true.

(* ------------------------------------------------------------------ *)
(** ** Concrete inputs *)

(** A 1x1 RGB image, pixel (255, 0, 0). *)
Definition red_1x1 : ndarray := Arr3 3 (mk_grid 1 [[[255; 0; 0]%Z]]).

(** A 1x1 RGB image, pixel (200, 0, 0). *)
Definition dark_red_1x1 : ndarray := Arr3 3 (mk_grid 1 [[[200; 0; 0]%Z]]).

Definition loaded (d : ndarray) : service :=
  snd (load_image (Some (new_image d false)) empty_service).

(** [np_apply_linear_correction] with factor 1.0, as called by
    [ImageService.apply_linear_correction(1.0)]. *)
Definition linear_1 (a : ndarray) : option ndarray := np_apply_linear_correction a 1.

(** Load [red_1x1], convert it to grayscale, then apply a linear correction:
    the correction writes the colour base back into [current] while the
    grayscale flag stays set. *)
Definition gray_then_linear : service :=
  run_edits pillow_processor [EditGrayscale; EditCorrection linear_1] (loaded red_1x1).

Definition desaturate : params := mk_params 0 1 0 0.

(** Load [dark_red_1x1] and convert it to grayscale. *)
Definition gray_dark_red : service :=
  run_edits pillow_processor [EditGrayscale] (loaded dark_red_1x1).

Definition brighten_100 : params := mk_params 100 1 1 0.

(** A 1x2 array with two samples per pixel (luma, alpha). *)
Definition la_1x2 : ndarray := Arr3 2 (mk_grid 2 [[[1; 2]; [3; 4]]%Z]).

Definition rotate_90 : params := mk_params 0 1 1 90.

(** A 2x3 RGBA array (2 rows, 3 columns) with distinct pixels and varying alpha. *)
Definition rgba_2x3 : ndarray :=
  Arr3 4 (mk_grid 3 [[[10; 20; 30; 255]; [40; 50; 60; 128]; [70; 80; 90; 0]];
                     [[100; 110; 120; 255]; [130; 140; 150; 64]; [160; 170; 180; 32]]]%Z).

(** Pixel [(i, j)] of an array, as the list of its samples. *)
Definition pixel_at (a : ndarray) (i j : nat) : list Z :=
  match a with
  | Arr2 g => [nth j (nth i (grows g) []) 0%Z]
  | Arr3 _ g => nth j (nth i (grows g) []) []
  end.

Definition ndarray_rectangular (a : ndarray) : Prop :=
  match a with Arr2 g => grid_wf g | Arr3 _ g => grid_wf g end.

(** The image object a state holds: same original data and colour model. *)
Definition same_image (img : image) (s : service) : Prop :=
  exists img', current_image s = Some img' /\
    original_data img' = original_data img /\ info_grayscale img' = info_grayscale img.

(** Number of histogram bins a sample falls into. *)
Definition bin_hits (x : Z) : nat :=
  sum_nat (map (fun b => if in_bin b x then 1 else 0) (seq 0 256))%nat.

(* ------------------------------------------------------------------ *)
(** ** Rotation lemmas *)

Local Open Scope nat_scope.

Section Transpose.

Context {A : Type}.

Lemma zip_cons_length (r : list A) (m : list (list A)) :
  length (zip_cons r m) = Nat.min (length r) (length m).
Proof.
  revert m; induction r as [|x r IH]; intros [|c m]; simpl; auto.
Qed.

Lemma Forall_zip_cons (r : list A) (m : list (list A)) k :
  Forall (fun c => length c = k) m ->
  Forall (fun c => length c = S k) (zip_cons r m).
Proof.
  revert m; induction r as [|x r IH]; intros [|c m] H; simpl; auto.
  inversion H; subst; constructor; simpl; auto.
Qed.

Lemma transpose_shape (w : nat) (m : list (list A)) :
  Forall (fun r => length r = w) m ->
  length (transpose w m) = w /\ Forall (fun c => length c = length m) (transpose w m).
Proof.
  induction m as [|r m IH]; intros H; simpl.
  - split; [apply repeat_length|].
    apply Forall_forall; intros x Hx; apply repeat_spec in Hx; subst; reflexivity.
  - inversion H as [|? ? Hr Hm]; subst.
    destruct (IH Hm) as [Hl Hf]; split.
    + rewrite zip_cons_length, Hl; lia.
    + apply Forall_zip_cons; exact Hf.
Qed.

Lemma nth_zip_cons (r : list A) (m : list (list A)) i d :
  i < length r -> i < length m ->
  nth i (zip_cons r m) [] = nth i r d :: nth i m [].
Proof.
  revert m i; induction r as [|x r IH]; intros [|c m] [|i] H1 H2; simpl in *;
    try lia; auto.
  apply IH; lia.
Qed.

Lemma nth_transpose (w : nat) (m : list (list A)) d i :
  Forall (fun r => length r = w) m -> i < w ->
  nth i (transpose w m) [] = map (fun r => nth i r d) m.
Proof.
  induction m as [|r m IH]; intros H Hi; simpl.
  - apply nth_repeat.
  - inversion H as [|? ? Hr Hm]; subst.
    rewrite (nth_zip_cons _ _ _ d); [| lia | rewrite (proj1 (transpose_shape _ _ Hm)); lia].
    rewrite IH; auto.
Qed.

Lemma np_rot90_1 (g : grid A) :
  np_rot90 1 g = mk_grid (length (grows g)) (transpose (gwidth g) (map (@rev A) (grows g))).
Proof. reflexivity. Qed.

Lemma rot90_shape (g : grid A) :
  grid_wf g ->
  grid_wf (np_rot90 1 g) /\ gwidth (np_rot90 1 g) = length (grows g) /\ length (grows (np_rot90 1 g)) = gwidth g.
Proof.
  intros H; rewrite np_rot90_1; unfold grid_wf in *; simpl.
  assert (Hm : Forall (fun r => length r = gwidth g) (map (@rev A) (grows g))).
  { apply Forall_map; eapply Forall_impl; [|exact H]; intros r Hr; simpl.
    rewrite length_rev; exact Hr. }
  destruct (transpose_shape _ _ Hm) as [Hl Hf].
  rewrite length_map in Hf; auto.
Qed.

Lemma rot90_nth (g : grid A) d i j :
  grid_wf g -> i < gwidth g -> j < length (grows g) ->
  nth j (nth i (grows (np_rot90 1 g)) []) d = nth (gwidth g - 1 - i) (nth j (grows g) []) d.
Proof.
  intros H Hi Hj; rewrite np_rot90_1; simpl.
  assert (Hm : Forall (fun r => length r = gwidth g) (map (@rev A) (grows g))).
  { apply Forall_map; eapply Forall_impl; [|exact H]; intros r Hr; simpl.
    rewrite length_rev; exact Hr. }
  rewrite (nth_transpose _ _ d i Hm Hi), map_map.
  rewrite (nth_indep _ d (nth i (rev []) d)) by (rewrite length_map; exact Hj).
  rewrite (map_nth (fun r => nth i (rev r) d)).
  assert (Hr : length (nth j (grows g) []) = gwidth g).
  { unfold grid_wf in H; rewrite Forall_forall in H; apply H, nth_In, Hj. }
  rewrite rev_nth by lia.
  f_equal; lia.
Qed.

Lemma grid_ext (g1 g2 : grid A) d :
  grid_wf g1 -> grid_wf g2 -> gwidth g1 = gwidth g2 ->
  length (grows g1) = length (grows g2) ->
  (forall i j, i < length (grows g1) -> j < gwidth g1 ->
     nth j (nth i (grows g1) []) d = nth j (nth i (grows g2) []) d) ->
  g1 = g2.
Proof.
  destruct g1 as [w1 m1], g2 as [w2 m2]; unfold grid_wf; simpl.
  intros H1 H2 Hw Hl Hp; subst w2; f_equal.
  apply (nth_ext _ _ [] []); [exact Hl|]; intros i Hi.
  rewrite Forall_forall in H1, H2.
  apply (nth_ext _ _ d d).
  - assert (Hi2 : i < length m2) by lia.
    rewrite (H1 _ (nth_In _ _ Hi)), (H2 _ (nth_In _ _ Hi2)); reflexivity.
  - intros j Hj; rewrite (H1 _ (nth_In _ _ Hi)) in Hj; auto.
Qed.

Lemma rot90_four (g : grid A) (d : A) :
  grid_wf g -> np_rot90 1 (np_rot90 1 (np_rot90 1 (np_rot90 1 g))) = g.
Proof.
  intros H0.
  destruct (rot90_shape g H0) as [H1 [W1 L1]].
  destruct (rot90_shape _ H1) as [H2 [W2 L2]].
  destruct (rot90_shape _ H2) as [H3 [W3 L3]].
  destruct (rot90_shape _ H3) as [H4 [W4 L4]].
  apply (grid_ext _ _ d); auto; [congruence | congruence |].
  intros i j Hi Hj.
  rewrite L4, W3, L2, W1 in Hi. rewrite W4, L3, W2, L1 in Hj.
  rewrite rot90_nth by (auto; congruence).
  rewrite rot90_nth by (auto; lia).
  rewrite rot90_nth by (auto; lia).
  rewrite rot90_nth by (auto; lia).
  rewrite W3, W2, L1, W1.
  rewrite L2, W1.
  f_equal; [lia | f_equal; lia].
Qed.

Lemma nth_map_rev (l : list (list A)) i : nth i (map (@rev A) l) [] = rev (nth i l []).
Proof. revert i; induction l as [|r l IH]; intros [|i]; simpl; auto. Qed.

Lemma np_rot90_2 (g : grid A) :
  np_rot90 2 g = mk_grid (gwidth g) (map (@rev A) (rev (grows g))).
Proof. reflexivity. Qed.

Lemma np_rot90_3 (g : grid A) :
  np_rot90 3 g = mk_grid (length (grows g)) (map (@rev A) (transpose (gwidth g) (grows g))).
Proof. reflexivity. Qed.

Lemma rot180_shape (g : grid A) :
  grid_wf g ->
  grid_wf (np_rot90 2 g) /\ gwidth (np_rot90 2 g) = gwidth g /\
  length (grows (np_rot90 2 g)) = length (grows g).
Proof.
  intros H; rewrite np_rot90_2; unfold grid_wf in *; cbn [grows gwidth].
  split; [|split; [reflexivity | rewrite length_map, length_rev; reflexivity]].
  apply Forall_map, Forall_rev; eapply Forall_impl; [|exact H]; intros r Hr.
  rewrite length_rev; exact Hr.
Qed.

Lemma rot270_shape (g : grid A) :
  grid_wf g ->
  grid_wf (np_rot90 3 g) /\ gwidth (np_rot90 3 g) = length (grows g) /\
  length (grows (np_rot90 3 g)) = gwidth g.
Proof.
  intros H; rewrite np_rot90_3; unfold grid_wf in *; cbn [grows gwidth].
  destruct (transpose_shape _ _ H) as [Hl Hf].
  split; [|split; [reflexivity | rewrite length_map; exact Hl]].
  apply Forall_map; eapply Forall_impl; [|exact Hf]; intros r Hr.
  rewrite length_rev; exact Hr.
Qed.

Lemma rot180_nth (g : grid A) d i j :
  grid_wf g -> i < length (grows g) -> j < gwidth g ->
  nth j (nth i (grows (np_rot90 2 g)) []) d
  = nth (gwidth g - 1 - j) (nth (length (grows g) - 1 - i) (grows g) []) d.
Proof.
  intros H Hi Hj; rewrite np_rot90_2; cbn [grows].
  rewrite nth_map_rev, (rev_nth (grows g) [] Hi).
  assert (Hr : length (nth (length (grows g) - S i) (grows g) []) = gwidth g).
  { unfold grid_wf in H; rewrite Forall_forall in H; apply H, nth_In; lia. }
  rewrite rev_nth by lia.
  rewrite Hr; f_equal; [lia | f_equal; lia].
Qed.

Lemma rot270_nth (g : grid A) d i j :
  grid_wf g -> i < gwidth g -> j < length (grows g) ->
  nth j (nth i (grows (np_rot90 3 g)) []) d
  = nth i (nth (length (grows g) - 1 - j) (grows g) []) d.
Proof.
  intros H Hi Hj; rewrite np_rot90_3; cbn [grows].
  rewrite nth_map_rev, (nth_transpose _ _ d i H Hi).
  rewrite rev_nth by (rewrite length_map; exact Hj).
  rewrite length_map.
  rewrite (nth_indep _ d (nth i [] d)) by (rewrite length_map; lia).
  rewrite (map_nth (fun r => nth i r d)).
  f_equal; f_equal; lia.
Qed.

Lemma rot180_twice (g : grid A) (d : A) :
  grid_wf g -> np_rot90 2 g = np_rot90 1 (np_rot90 1 g).
Proof.
  intros H0.
  destruct (rot180_shape g H0) as [H2 [W2 L2]].
  destruct (rot90_shape g H0) as [H1 [W1 L1]].
  destruct (rot90_shape _ H1) as [H1' [W1' L1']].
  apply (grid_ext _ _ d); [auto | auto | congruence | congruence |].
  intros i j Hi Hj; rewrite L2 in Hi; rewrite W2 in Hj.
  rewrite rot180_nth by auto.
  rewrite rot90_nth by (auto; congruence).
  rewrite rot90_nth by (auto; lia).
  rewrite W1; reflexivity.
Qed.

Lemma rot270_thrice (g : grid A) (d : A) :
  grid_wf g -> np_rot90 3 g = np_rot90 1 (np_rot90 1 (np_rot90 1 g)).
Proof.
  intros H0.
  destruct (rot270_shape g H0) as [H3 [W3 L3]].
  destruct (rot90_shape g H0) as [H1 [W1 L1]].
  destruct (rot90_shape _ H1) as [H2 [W2 L2]].
  destruct (rot90_shape _ H2) as [H2' [W2' L2']].
  apply (grid_ext _ _ d); [auto | auto | congruence | congruence |].
  intros i j Hi Hj; rewrite L3 in Hi; rewrite W3 in Hj.
  rewrite rot270_nth by auto.
  rewrite rot90_nth by (auto; congruence).
  rewrite rot90_nth by (first [assumption | rewrite ?W2, ?L2, ?W1, ?L1; lia]).
  rewrite rot90_nth by (first [assumption | rewrite ?W2, ?L2, ?W1, ?L1; lia]).
  rewrite W2, L1, W1.
  replace (gwidth g - 1 - (gwidth g - 1 - i)) with i by lia; reflexivity.
Qed.

Lemma rot180_involutive (g : grid A) : np_rot90 2 (np_rot90 2 g) = g.
Proof.
  rewrite !np_rot90_2; destruct g as [w m]; cbn [grows gwidth]; f_equal.
  rewrite !map_rev, rev_involutive, map_map.
  rewrite (map_ext _ (fun x => x)) by (intros r; apply rev_involutive).
  apply map_id.
Qed.

Lemma Forall_zip_cons_all (P : A -> Prop) (r : list A) (m : list (list A)) :
  Forall P r -> Forall (Forall P) m -> Forall (Forall P) (zip_cons r m).
Proof.
  revert m; induction r as [|x r IH]; intros [|c m] Hr Hm; simpl; auto.
  inversion Hr; inversion Hm; subst; constructor; auto.
Qed.

Lemma Forall_transpose (P : A -> Prop) (w : nat) (m : list (list A)) :
  Forall (Forall P) m -> Forall (Forall P) (transpose w m).
Proof.
  induction m as [|r m IH]; intros H; simpl.
  - apply Forall_forall; intros x Hx; apply repeat_spec in Hx; subst; constructor.
  - inversion H; subst; apply Forall_zip_cons_all; auto.
Qed.

Lemma Forall_map_rev (P : A -> Prop) (m : list (list A)) :
  Forall (Forall P) m -> Forall (Forall P) (map (@rev A) m).
Proof.
  intros H; apply Forall_map; eapply Forall_impl; [|exact H]; intros r Hr.
  apply Forall_rev, Hr.
Qed.

(** Every [np.rot90] keeps the samples: a property of all samples survives. *)
Lemma Forall_np_rot90 (P : A -> Prop) (k : Z) (g : grid A) :
  Forall (Forall P) (grows g) -> Forall (Forall P) (grows (np_rot90 k g)).
Proof.
  intros H; unfold np_rot90.
  destruct (_ =? 0)%Z; [exact H|].
  destruct (_ =? 2)%Z; [apply Forall_map_rev, Forall_rev, H|].
  destruct (_ =? 1)%Z; cbn [grows].
  - apply Forall_transpose, Forall_map_rev, H.
  - apply Forall_map_rev, Forall_transpose, H.
Qed.

End Transpose.

Lemma rotate_image_90 (a : ndarray) : rotate_image a 90 = Some (rot90_array 1 a).
Proof. reflexivity. Qed.

(* ------------------------------------------------------------------ *)
(** ** Histogram lemmas *)

Lemma filter_length_cons {B} (f : B -> bool) x xs :
  length (filter f (x :: xs)) = (if f x then 1 else 0) + length (filter f xs).
Proof. simpl; destruct (f x); reflexivity. Qed.

Lemma sum_nat_map_add {B} (f h : B -> nat) (l : list B) :
  sum_nat (map (fun b => f b + h b) l) = sum_nat (map f l) + sum_nat (map h l).
Proof. induction l as [|b l IH]; simpl; [reflexivity | rewrite IH; lia]. Qed.

Lemma bin_hits_table :
  forallb (fun n => Nat.eqb (bin_hits (Z.of_nat n)) 1) (seq 0 256) = true.
Proof. vm_compute. reflexivity. Qed.

(** Every uint8 sample falls into exactly one of the 256 bins. *)
Lemma bin_hits_sample (x : Z) : sample_ok x = true -> bin_hits x = 1.
Proof.
  intros Hx; unfold sample_ok in Hx; apply andb_prop in Hx as [H1 H2].
  apply Z.leb_le in H1; apply Z.leb_le in H2.
  assert (Hin : In (Z.to_nat x) (seq 0 256)) by (apply in_seq; lia).
  pose proof (proj1 (forallb_forall _ _) bin_hits_table (Z.to_nat x) Hin) as H.
  cbv beta in H; rewrite Z2Nat.id in H by lia.
  apply Nat.eqb_eq; exact H.
Qed.

Lemma histogram_sum (xs : list Z) :
  Forall (fun x => sample_ok x = true) xs ->
  sum_nat (np_histogram256 xs) = length xs.
Proof.
  induction xs as [|x xs IH]; intros H.
  - vm_compute; reflexivity.
  - inversion H as [|? ? Hx Hxs]; subst.
    unfold np_histogram256.
    rewrite (map_ext _ (fun b => (if in_bin b x then 1 else 0) + length (filter (in_bin b) xs)))
      by (intros b; apply filter_length_cons).
    rewrite sum_nat_map_add.
    fold (bin_hits x); rewrite bin_hits_sample by exact Hx.
    fold (np_histogram256 xs); rewrite IH by exact Hxs; reflexivity.
Qed.

Lemma length_concat_rect {B} (w : nat) (m : list (list B)) :
  Forall (fun r => length r = w) m -> length (concat m) = length m * w.
Proof.
  induction m as [|r m IH]; intros H; simpl; [reflexivity|].
  inversion H; subst; rewrite length_app, IH by assumption; lia.
Qed.

Lemma channel_samples_length (k : nat) (g : grid (list Z)) :
  grid_wf g -> length (channel_samples k g) = length (grows g) * gwidth g.
Proof.
  intros H; unfold channel_samples.
  rewrite (length_concat_rect (gwidth g)).
  - rewrite length_map; reflexivity.
  - apply Forall_map; eapply Forall_impl; [|exact H]; intros r Hr; simpl.
    rewrite length_map; exact Hr.
Qed.

Lemma channel_samples_ok (c k : nat) (g : grid (list Z)) :
  Forall (Forall (fun px => length px = c /\ Forall (fun x => sample_ok x = true) px)) (grows g) ->
  Forall (fun x => sample_ok x = true) (channel_samples k g).
Proof.
  intros H; unfold channel_samples.
  apply Forall_concat, Forall_map; eapply Forall_impl; [|exact H]; intros r Hr.
  apply Forall_map; eapply Forall_impl; [|exact Hr]; intros px [_ Hpx].
  destruct (nth_in_or_default k px 0%Z) as [Hin | ->].
  - rewrite Forall_forall in Hpx; apply Hpx, Hin.
  - reflexivity.
Qed.

Lemma channel_samples_firstn (k : nat) (g : grid (list Z)) :
  k < 3 -> channel_samples k (map_grid (firstn 3) g) = channel_samples k g.
Proof.
  intros Hk; unfold channel_samples, map_grid; cbn [grows].
  rewrite map_map; f_equal; apply map_ext; intros r.
  rewrite map_map; apply map_ext; intros px.
  rewrite nth_firstn; replace (k <? 3) with true by (symmetry; apply Nat.ltb_lt; exact Hk).
  reflexivity.
Qed.

(* ------------------------------------------------------------------ *)
(** ** Service lemmas *)

Ltac split_matches :=
  repeat match goal with
  | |- context [match ?x with _ => _ end] =>
      lazymatch x with
      | context [match _ with _ => _ end] => fail
      | _ => destruct x eqn:?
      end
  end.

Ltac close_same H :=
  unfold same_image;
  cbn [snd fst current_image set_base set_image update_data original_data
       info_grayscale image_reset_to_original];
  first [ eexists; split; [reflexivity | split; first [reflexivity | assumption]]
        | eexists; split; [exact H | split; first [reflexivity | assumption]] ].

Lemma apply_keeps_image (proc : processor) p s img :
  current_image s = Some img -> same_image img (snd (apply_processing_parameters proc p s)).
Proof.
  intros H; unfold apply_processing_parameters; rewrite H.
  split_matches; close_same H.
Qed.

Lemma run_edit_keeps_image (proc : processor) e s img :
  same_image img s -> same_image img (run_edit proc e s).
Proof.
  intros [img' [H [Ho Hi]]].
  destruct e as [|p|f|]; simpl.
  - unfold service_convert_to_grayscale; rewrite H.
    split_matches; close_same H.
  - destruct (apply_keeps_image proc p s img' H) as [i2 [H2 [O2 I2]]].
    exists i2; split; [exact H2 | split; congruence].
  - unfold apply_correction; rewrite H.
    destruct (f _) as [corrected|]; simpl; [|exists img'; auto].
    destruct (_ || _ || _); simpl.
    + destruct (apply_keeps_image proc (current_processing_params s)
                  (set_base s corrected) img' H) as [i2 [H2 [O2 I2]]].
      exists i2; split; [exact H2 | split; congruence].
    + eexists; split; [reflexivity | auto].
  - unfold reset_to_original; rewrite H; simpl.
    eexists; split; [reflexivity | auto].
Qed.

Lemma run_edits_keeps_image (proc : processor) es s img :
  same_image img s -> same_image img (run_edits proc es s).
Proof.
  revert s; induction es as [|e es IH]; intros s H; simpl; auto.
  apply IH, run_edit_keeps_image, H.
Qed.

Lemma Qeq_bool_refl_true (x : Q) : Qeq_bool x x = true.
Proof. apply Qeq_bool_iff; reflexivity. Qed.

(** *** States reached from the repository *)

Lemma pil_enhance_channels (e : enhancer) (c : nat) (g : grid (list Z)) (f : Q) (a' : ndarray) :
  pil_enhance e c g f = Some a' -> exists g', a' = Arr3 c g'.
Proof.
  unfold pil_enhance; destruct (negb (pil_mode_ok c)); [discriminate|].
  destruct e; intros E; injection E as <-; eexists; reflexivity.
Qed.

Lemma pillow_stage_repository (a a' : ndarray) (f : Q) :
  (np_adjust_brightness a f = Some a' \/ np_adjust_contrast a f = Some a' \/
   np_adjust_saturation a f = Some a') ->
  repository_array a' = repository_array a.
Proof.
  destruct a as [g|c g].
  - intros [E|[E|E]]; cbn in E; injection E as <-; reflexivity.
  - intros [E|[E|E]];
      cbn [np_adjust_brightness np_adjust_contrast np_adjust_saturation] in E;
      apply pil_enhance_channels in E as [g' ->]; reflexivity.
Qed.

Lemma rot90_array_repository (k : Z) (a : ndarray) :
  repository_array (rot90_array k a) = repository_array a.
Proof. destruct a; reflexivity. Qed.

Lemma rotate_image_repository (a a' : ndarray) (angle : Z) :
  rotate_image a angle = Some a' -> repository_array a' = repository_array a.
Proof.
  unfold rotate_image; cbv zeta.
  repeat match goal with |- context [if ?b then _ else _] => destruct b end;
    intros E; try discriminate E; injection E as <-;
    first [reflexivity | apply rot90_array_repository].
Qed.

Lemma repository_convert (a : ndarray) :
  repository_array a = true -> exists a', np_convert_to_grayscale a = Some a'.
Proof.
  destruct a as [g|c g]; cbn [repository_array np_convert_to_grayscale]; intros H;
    [|rewrite H]; eexists; reflexivity.
Qed.

Lemma stage_repository (cond : bool) (op : ndarray -> option ndarray) (d d' : ndarray) :
  (forall x y, op x = Some y -> repository_array y = repository_array x) ->
  stage_if cond op d = Some d' -> repository_array d' = repository_array d.
Proof.
  intros Hop; unfold stage_if; destruct cond; [apply Hop | intros E; injection E as <-; reflexivity].
Qed.

Lemma linear_keeps_repository :
  edit_keeps_repository_arrays (EditCorrection linear_1).
Proof. intros [g|c g] a' E; cbn in E; injection E as <-; auto. Qed.

(** The three pixel stages keep a repository array one. *)
Lemma pillow_stages_repository (p : params) (img : image) (b d3 : ndarray) :
  repository_array b = true ->
  obind (stage_if (negb (Qeq_bool (brightness p) 0))
           (fun d => adjust_brightness pillow_processor d (brightness p)) b) (fun d1 =>
  obind (stage_if (negb (Qeq_bool (contrast p) 1))
           (fun d => adjust_contrast pillow_processor d (contrast p)) d1) (fun d2 =>
  stage_if (negb (is_grayscale img) && negb (Qeq_bool (saturation p) 1))
           (fun d => adjust_saturation pillow_processor d (saturation p)) d2)) = Some d3 ->
  repository_array d3 = true.
Proof.
  intros Hb; unfold obind.
  destruct (stage_if _ _ b) as [d1|] eqn:E1; [|discriminate].
  destruct (stage_if _ _ d1) as [d2|] eqn:E2; [|discriminate].
  intros E3.
  rewrite (stage_repository _ _ _ _
             (fun x y E => pillow_stage_repository x y (saturation p) (or_intror (or_intror E))) E3).
  rewrite (stage_repository _ _ _ _
             (fun x y E => pillow_stage_repository x y (contrast p) (or_intror (or_introl E))) E2).
  rewrite (stage_repository _ _ _ _
             (fun x y E => pillow_stage_repository x y (brightness p) (or_introl E)) E1).
  exact Hb.
Qed.

(** With a repository array as base, [apply_processing_parameters] can only
    fail before it changes anything. *)
Lemma apply_failed_unchanged (p : params) (t : service) (img : image) (b : ndarray) :
  current_image t = Some img -> base_image_data t = Some b -> repository_array b = true ->
  fst (apply_processing_parameters pillow_processor p t) = false ->
  snd (apply_processing_parameters pillow_processor p t) = t.
Proof.
  destruct t as [ci ig cp bi]; cbn [current_image base_image_data]; intros -> -> Hb.
  unfold apply_processing_parameters; cbv zeta;
    cbn [current_image base_image_data is_gray current_processing_params set_base].
  destruct (negb (validate p)); [intros _; reflexivity|].
  destruct (obind _ _) as [d3|] eqn:E3; [|intros _; reflexivity].
  pose proof (pillow_stages_repository p img b d3 Hb E3) as H3.
  destruct (negb (_ =? 0)%Z); cbn [rotate pillow_processor].
  - destruct (rotate_image d3 _) as [d4|] eqn:E4; [|intros _; reflexivity].
    destruct (rotate_image b _) as [b'|]; [|intros _; reflexivity].
    rewrite <- (rotate_image_repository _ _ _ E4) in H3.
    destruct (repository_convert d4 H3) as [d5 E5].
    destruct ig; cbn [stage_if convert_to_grayscale pillow_processor]; [rewrite E5|];
      intros Hf; discriminate Hf.
  - destruct (repository_convert d3 H3) as [d5 E5].
    destruct ig; cbn [stage_if convert_to_grayscale pillow_processor]; [rewrite E5|];
      intros Hf; discriminate Hf.
Qed.

Lemma apply_keeps_repository (p : params) (t : service) :
  repository_state t -> repository_state (snd (apply_processing_parameters pillow_processor p t)).
Proof.
  intros (img & b & Hc & Hb & Hrb & Ho).
  unfold apply_processing_parameters; rewrite Hc, Hb; cbv zeta.
  destruct (negb (validate p)); [exists img, b; auto|].
  destruct (obind _ _) as [d3|]; [|exists img, b; cbn; auto].
  destruct (negb (_ =? 0)%Z); cbn [rotate pillow_processor].
  - destruct (rotate_image d3 _) as [d4|]; [|exists img, b; cbn; auto].
    destruct (rotate_image b _) as [b'|] eqn:Eb; [|exists img, b; cbn; auto].
    pose proof (rotate_image_repository _ _ _ Eb) as Hb'.
    destruct (stage_if _ _ d4) as [d5|]; cbn;
      [exists (update_data img d5), b' | exists img, b']; rewrite Hb'; auto.
  - destruct (stage_if _ _ d3) as [d5|]; cbn;
      [exists (update_data img d5), b | exists img, b]; auto.
Qed.

Lemma run_edit_keeps_repository (e : edit) (t : service) :
  edit_keeps_repository_arrays e -> repository_state t ->
  repository_state (run_edit pillow_processor e t).
Proof.
  intros He Ht; pose proof Ht as (img & b & Hc & Hb & Hrb & Ho).
  destruct e as [|p|f|]; cbn [run_edit].
  - unfold service_convert_to_grayscale; rewrite Hc.
    destruct (convert_to_grayscale pillow_processor (current_data img)) as [d'|];
      [exists (update_data img d'), b; cbn; auto | exact Ht].
  - apply apply_keeps_repository, Ht.
  - unfold apply_correction; rewrite Hc, Hb; cbv zeta.
    destruct (f b) as [c|] eqn:E; [|exact Ht].
    pose proof (He b c E Hrb) as Hrc.
    destruct (_ || _ || _); cbn [snd].
    + apply apply_keeps_repository; exists img, c; cbn; auto.
    + exists (update_data img c), c; cbn; auto.
  - unfold reset_to_original; rewrite Hc.
    exists (image_reset_to_original img), (original_data img); cbn; auto.
Qed.

Lemma run_edits_keeps_repository (es : list edit) (t : service) :
  Forall edit_keeps_repository_arrays es -> repository_state t ->
  repository_state (run_edits pillow_processor es t).
Proof.
  revert t; induction es as [|e es IH]; intros t Hes Ht; cbn [run_edits]; [exact Ht|].
  inversion Hes; subst; apply IH; [assumption|].
  apply run_edit_keeps_repository; assumption.
Qed.

(* ------------------------------------------------------------------ *)
(** ** Claims *)

(** C1 (code_bug).  Applying the same parameters twice is not idempotent on a
    reachable state: load a 1x1 RGB image (255, 0, 0), convert it to
    grayscale, apply a linear correction with factor 1.0 (this writes the
    colour base back into [current] while the grayscale flag stays set), then
    apply brightness 0, contrast 1, saturation 0, rotation 0.  The first
    application sees a colour [current], so runs the saturation stage before
    the forced grayscale conversion and yields 75; the second sees the 2-D
    result, skips saturation, and yields 76. *)
Theorem C1_second_apply_differs :
  option_map current_data
    (current_image (snd (apply_processing_parameters pillow_processor desaturate
                           gray_then_linear)))
  = Some (Arr2 (mk_grid 1 [[75%Z]])) /\
  option_map current_data
    (current_image (snd (apply_processing_parameters pillow_processor desaturate
                           (snd (apply_processing_parameters pillow_processor desaturate
                                   gray_then_linear)))))
  = Some (Arr2 (mk_grid 1 [[76%Z]])).
Proof. split; vm_compute; reflexivity. Qed.

(** C2 (counterexample).  The code does not force grayscale first: after
    loading (200, 0, 0) and converting it to grayscale, brightness +100 gives
    76 (brighten the colour base, then convert), while the order of the
    specification would give 118 (convert to 59, then double it). *)
Lemma C2_order_counterexample :
  option_map current_data
    (current_image (snd (apply_processing_parameters pillow_processor brighten_100
                           gray_dark_red)))
  = Some (Arr2 (mk_grid 1 [[76%Z]])) /\
  spec_order_current pillow_processor brighten_100 gray_dark_red
  = Some (Arr2 (mk_grid 1 [[118%Z]])).
Proof. split; vm_compute; reflexivity. Qed.

(** C2 (amended).  A successful [apply_processing_parameters] computes
    [current] from the base in the order brightness (if not 0), contrast (if
    not 1), saturation (if the current image is not grayscale and the factor is
    not 1), rotation by the difference to the stored rotation (if not 0, and
    the same rotation is committed into the base), and grayscale forcing last
    (if the grayscale flag is set); the stored parameters become [p]. *)
Theorem C2_stage_order (proc : processor) (p : params) (s : service) (img : image)
    (b : ndarray) (s' : service) :
  current_image s = Some img -> base_image_data s = Some b ->
  apply_processing_parameters proc p s = (true, s') ->
  let delta := (rotation p - rotation (current_processing_params s))%Z in
  exists d3 d4 d5,
    obind (stage_if (negb (Qeq_bool (brightness p) 0))
             (fun d => adjust_brightness proc d (brightness p)) b) (fun d1 =>
    obind (stage_if (negb (Qeq_bool (contrast p) 1))
             (fun d => adjust_contrast proc d (contrast p)) d1) (fun d2 =>
    stage_if (negb (is_grayscale img) && negb (Qeq_bool (saturation p) 1))
             (fun d => adjust_saturation proc d (saturation p)) d2)) = Some d3 /\
    stage_if (negb (delta =? 0)%Z) (fun d => rotate proc d delta) d3 = Some d4 /\
    stage_if (is_gray s) (convert_to_grayscale proc) d4 = Some d5 /\
    current_image s' = Some (update_data img d5) /\
    base_image_data s' = (if negb (delta =? 0)%Z then rotate proc b delta else Some b) /\
    current_processing_params s' = p.
Proof.
  intros Hc Hb Ha delta.
  unfold apply_processing_parameters in Ha; rewrite Hc, Hb in Ha.
  destruct (negb (validate p)); [discriminate|].
  destruct (obind _ _) as [d3|] eqn:E3; [|discriminate].
  fold delta in Ha.
  destruct (negb (delta =? 0)%Z) eqn:Ed.
  - destruct (rotate proc d3 delta) as [d4|] eqn:E4; [|discriminate].
    destruct (rotate proc b delta) as [b'|] eqn:Eb; [|discriminate].
    destruct (stage_if (is_gray s) (convert_to_grayscale proc) d4) as [d5|] eqn:E5;
      [|discriminate].
    injection Ha as <-.
    exists d3, d4, d5; cbn; repeat split; auto.
    destruct p; reflexivity.
  - destruct (stage_if (is_gray s) (convert_to_grayscale proc) d3) as [d5|] eqn:E5;
      [|discriminate].
    injection Ha as <-.
    exists d3, d3, d5; cbn; repeat split; auto.
    destruct p; reflexivity.
Qed.

(** C3.  An invalid parameter set is rejected and the whole state (image,
    base, stored parameters, grayscale flag) is left as it was. *)
Theorem C3_invalid_params_rejected (proc : processor) (p : params) (s : service) :
  validate p = false -> apply_processing_parameters proc p s = (false, s).
Proof.
  intros Hv; unfold apply_processing_parameters.
  destruct (current_image s); [rewrite Hv; reflexivity | reflexivity].
Qed.

(** C4.  In every state reached by loading an image through the repository
    (mode L, RGB or RGBA) and then editing it (grayscale conversion, parameter
    application, linear/logarithmic/gamma corrections, resets), a call of
    [apply_processing_parameters] that fails leaves the whole state as it
    was: the current image, the base, the stored parameters and the grayscale
    flag.  No stage can fail after the base has been turned: the rotated data
    keep 1, 3 or 4 channels, which the forced grayscale conversion accepts. *)
Theorem C4_failed_apply_unchanged (d : ndarray) (info_gray : bool) (es : list edit)
    (s : service) (p : params) :
  repository_array d = true -> Forall edit_keeps_repository_arrays es ->
  let t := run_edits pillow_processor es (snd (load_image (Some (new_image d info_gray)) s)) in
  fst (apply_processing_parameters pillow_processor p t) = false ->
  snd (apply_processing_parameters pillow_processor p t) = t.
Proof.
  intros Hd Hes t.
  assert (H : repository_state t).
  { apply run_edits_keeps_repository; [exact Hes|].
    exists (new_image d info_gray), d; auto. }
  destruct H as (img & b & Hc & Hb & Hrb & _).
  apply (apply_failed_unchanged p t img b Hc Hb Hrb).
Qed.

(** C5.  After loading an image and any sequence of edits (grayscale
    conversion, parameter application, linear/logarithmic/gamma corrections,
    resets), [reset_to_original] succeeds and leaves [current] and the base
    equal to the loaded data, the parameters at identity, the grayscale flag
    cleared and the image unmodified. *)
Theorem C5_reset_restores_original (proc : processor) (d : ndarray) (info_gray : bool)
    (es : list edit) (s : service) :
  reset_to_original
    (run_edits proc es (snd (load_image (Some (new_image d info_gray)) s)))
  = (true, mk_service (Some (mk_image d d info_gray false)) false default_params (Some d)).
Proof.
  assert (H0 : same_image (new_image d info_gray)
                 (snd (load_image (Some (new_image d info_gray)) s)))
    by (exists (new_image d info_gray); auto).
  destruct (run_edits_keeps_image proc es _ _ H0) as [img [H [Ho Hi]]].
  unfold reset_to_original; rewrite H.
  destruct img; cbn in *; subst; reflexivity.
Qed.

(** C6.  [rotate_image a 90] is [numpy.rot90(a, 1)]: pixel (i, j) of the
    result is pixel (j, W-1-i) of [a] (an exact re-indexing), and four such
    quarter-turns give back [a]. *)
Theorem C6_rotate_four_quarter_turns (a : ndarray) :
  ndarray_rectangular a ->
  obind (rotate_image a 90) (fun a1 => obind (rotate_image a1 90) (fun a2 =>
    obind (rotate_image a2 90) (fun a3 => rotate_image a3 90))) = Some a /\
  rotate_image a 90 = Some (rot90_array 1 a) /\
  (forall i j, (i < width a)%nat -> (j < height a)%nat ->
     pixel_at (rot90_array 1 a) i j = pixel_at a j (width a - 1 - i)).
Proof.
  intros H.
  repeat (rewrite rotate_image_90; cbn [obind]).
  destruct a as [g|c g]; cbn [ndarray_rectangular rot90_array width height pixel_at] in *.
  - split; [|split; [reflexivity|]].
    + rewrite (rot90_four g 0%Z H); reflexivity.
    + intros i j Hi Hj; rewrite rot90_nth; auto.
  - split; [|split; [reflexivity|]].
    + rewrite (rot90_four g [] H); reflexivity.
    + intros i j Hi Hj; rewrite rot90_nth; auto.
Qed.

(** C7 (counterexample).  A 3-D array with 5 samples per pixel gets a
    histogram instead of an error. *)
Lemma C7_five_channels_accepted :
  calculate_histogram (Arr3 5 (mk_grid 1 [[[1; 2; 3; 4; 5]%Z]])) <> None.
Proof. vm_compute; discriminate. Qed.

(** C7 (amended).  [calculate_histogram] raises exactly for 3-D arrays with
    fewer than 3 samples per pixel.  A 2-D array gets a grayscale histogram
    of all its samples.  A 3-D array with 3 or more samples per pixel (5
    included) gets R, G, B histograms of its channels 0, 1, 2 and no
    grayscale one: the same histogram as the RGB array made of its first
    three channels. *)
Theorem C7_histogram_shapes (a : ndarray) :
  (calculate_histogram a = None <-> exists c g, a = Arr3 c g /\ (c < 3)%nat) /\
  (forall g, a = Arr2 g ->
     calculate_histogram a =
       Some (mk_histogram None None None (Some (np_histogram256 (concat (grows g)))))) /\
  (forall c g, a = Arr3 c g -> (3 <= c)%nat ->
     calculate_histogram a =
       Some (mk_histogram (Some (np_histogram256 (channel_samples 0 g)))
                          (Some (np_histogram256 (channel_samples 1 g)))
                          (Some (np_histogram256 (channel_samples 2 g))) None) /\
     calculate_histogram a = calculate_histogram (Arr3 3 (map_grid (firstn 3) g))).
Proof.
  split; [|split].
  - destruct a as [g|c g]; unfold calculate_histogram; split.
    + discriminate.
    + intros [c [g' [E _]]]; discriminate.
    + destruct (3 <=? c)%nat eqn:E; [intros Hn; discriminate Hn|].
      intros _; exists c, g; split; [reflexivity|]; apply Nat.leb_gt, E.
    + intros [c' [g' [E Hc]]]; injection E as -> ->.
      replace (3 <=? c')%nat with false by (symmetry; apply Nat.leb_gt, Hc); reflexivity.
  - intros g ->; reflexivity.
  - intros c g -> Hc.
    assert (H3 : (3 <=? c)%nat = true) by (apply Nat.leb_le, Hc).
    unfold calculate_histogram; rewrite H3; split; [reflexivity|].
    replace (3 <=? 3)%nat with true by reflexivity.
    rewrite !channel_samples_firstn by lia; reflexivity.
Qed.

(** C8.  For a well-formed uint8 array, the grayscale histogram (2-D) or each
    of the R, G, B histograms (3-D with 3 or 4 samples per pixel) has 256 bins
    summing to height x width; the colour histograms are those of the first
    three channels, so the alpha channel does not affect them. *)
Theorem C8_histogram_counts (a : ndarray) :
  ndarray_wf a ->
  (forall g, a = Arr2 g ->
     exists hs, calculate_histogram a = Some (mk_histogram None None None (Some hs)) /\
       length hs = 256%nat /\ sum_nat hs = (height a * width a)%nat) /\
  (forall c g, a = Arr3 c g -> (c = 3 \/ c = 4)%nat ->
     calculate_histogram a =
       Some (mk_histogram (Some (np_histogram256 (channel_samples 0 g)))
                          (Some (np_histogram256 (channel_samples 1 g)))
                          (Some (np_histogram256 (channel_samples 2 g))) None) /\
     (forall k, (k < 3)%nat ->
        length (np_histogram256 (channel_samples k g)) = 256%nat /\
        sum_nat (np_histogram256 (channel_samples k g)) = (height a * width a)%nat) /\
     calculate_histogram a = calculate_histogram (Arr3 3 (map_grid (firstn 3) g))).
Proof.
  intros Hwf; split.
  - intros g ->; destruct Hwf as [Hr Hs].
    eexists; split; [reflexivity|]; split.
    + unfold np_histogram256; rewrite length_map, length_seq; reflexivity.
    + rewrite histogram_sum by (apply Forall_concat; exact Hs).
      rewrite (length_concat_rect (gwidth g)) by exact Hr; reflexivity.
  - intros c g -> Hc; destruct Hwf as [Hr Hs].
    assert (H3 : (3 <=? c)%nat = true) by (apply Nat.leb_le; lia).
    split; [|split].
    + unfold calculate_histogram; rewrite H3; reflexivity.
    + intros k Hk; split.
      * unfold np_histogram256; rewrite length_map, length_seq; reflexivity.
      * rewrite histogram_sum by (eapply channel_samples_ok; exact Hs).
        apply channel_samples_length, Hr.
    + unfold calculate_histogram; rewrite H3; replace (3 <=? 3)%nat with true by reflexivity.
      rewrite !channel_samples_firstn by lia; reflexivity.
Qed.

(** C9 (counterexample).  The brightness primitive accepts brightness 200 and
    -200 and returns a clipped result instead of failing. *)
Lemma C9_out_of_range_brightness_accepted :
  adjust_brightness pillow_processor (Arr2 (mk_grid 1 [[100%Z]])) 200
  = Some (Arr2 (mk_grid 1 [[255%Z]])) /\
  adjust_brightness pillow_processor (Arr2 (mk_grid 1 [[100%Z]])) (-200)
  = Some (Arr2 (mk_grid 1 [[0%Z]])).
Proof. split; vm_compute; reflexivity. Qed.

(** C9 (amended).  For every brightness [b] (no range check) the primitive
    returns a result computed with [factor = 1 + b/100]: on a 2-D array each
    sample becomes [clip(x * factor, 0, 255)] truncated to uint8; on an
    LA/RGB/RGBA array each colour sample is blended from black with the
    factor through Pillow (clipped, truncated, alpha kept). *)
Theorem C9_brightness_primitive (g : grid Z) (c : nat) (cg : grid (list Z)) (b : Q) :
  pil_mode_ok c = true ->
  adjust_brightness pillow_processor (Arr2 g) b
  = Some (Arr2 (map_grid (fun x => clip_u8 (inject_Z x * (1 + b / 100))) g)) /\
  adjust_brightness pillow_processor (Arr3 c cg) b
  = Some (Arr3 c (map_grid (pil_blend_pixel c 0 (1 + b / 100)) cg)).
Proof.
  intros Hc; split; [reflexivity|].
  cbn [adjust_brightness pillow_processor np_adjust_brightness].
  unfold pil_enhance; rewrite Hc; reflexivity.
Qed.

(** C10 (code_bug).  Negative angles are normalised (-90 acts as 270, -180 as
    180, -270 as 90), but a full turn other than 0 is rejected: 360 and -360
    reduce to 0 modulo 360, which no branch accepts (the [angle == 360]
    branch is unreachable after [angle %= 360]). *)
Theorem C10_rotate_full_turn_rejected (a : ndarray) :
  rotate_image a 360 = None /\ rotate_image a (-360) = None /\
  rotate_image a (-90) = rotate_image a 270 /\
  rotate_image a (-180) = rotate_image a 180 /\
  rotate_image a (-270) = rotate_image a 90.
Proof. repeat split; reflexivity. Qed.

(* ------------------------------------------------------------------ *)
(** ** Witnesses: the theorems above applied at concrete inputs *)

Lemma C2_stage_order_witness :
  current_image gray_dark_red
  = Some (mk_image dark_red_1x1 (Arr2 (mk_grid 1 [[59%Z]])) false true) /\
  base_image_data gray_dark_red = Some dark_red_1x1 /\
  apply_processing_parameters pillow_processor brighten_100 gray_dark_red
  = (true, mk_service (Some (mk_image dark_red_1x1 (Arr2 (mk_grid 1 [[76%Z]])) false true))
             true brighten_100 (Some dark_red_1x1)) /\
  (let delta := (rotation brighten_100 - rotation (current_processing_params gray_dark_red))%Z in
   exists d3 d4 d5,
    obind (stage_if (negb (Qeq_bool (brightness brighten_100) 0))
             (fun d => adjust_brightness pillow_processor d (brightness brighten_100))
             dark_red_1x1) (fun d1 =>
    obind (stage_if (negb (Qeq_bool (contrast brighten_100) 1))
             (fun d => adjust_contrast pillow_processor d (contrast brighten_100)) d1) (fun d2 =>
    stage_if (negb (is_grayscale (mk_image dark_red_1x1 (Arr2 (mk_grid 1 [[59%Z]])) false true))
              && negb (Qeq_bool (saturation brighten_100) 1))
             (fun d => adjust_saturation pillow_processor d (saturation brighten_100)) d2))
    = Some d3 /\
    stage_if (negb (delta =? 0)%Z) (fun d => rotate pillow_processor d delta) d3 = Some d4 /\
    stage_if (is_gray gray_dark_red) (convert_to_grayscale pillow_processor) d4 = Some d5 /\
    current_image (mk_service (Some (mk_image dark_red_1x1 (Arr2 (mk_grid 1 [[76%Z]])) false true))
                    true brighten_100 (Some dark_red_1x1))
    = Some (update_data (mk_image dark_red_1x1 (Arr2 (mk_grid 1 [[59%Z]])) false true) d5) /\
    base_image_data (mk_service (Some (mk_image dark_red_1x1 (Arr2 (mk_grid 1 [[76%Z]])) false true))
                      true brighten_100 (Some dark_red_1x1))
    = (if negb (delta =? 0)%Z then rotate pillow_processor dark_red_1x1 delta
       else Some dark_red_1x1) /\
    current_processing_params
      (mk_service (Some (mk_image dark_red_1x1 (Arr2 (mk_grid 1 [[76%Z]])) false true))
         true brighten_100 (Some dark_red_1x1)) = brighten_100).
Proof.
  refine (conj _ (conj _ (conj _ _))); [vm_compute; reflexivity .. |].
  apply C2_stage_order; vm_compute; reflexivity.
Defined.

Lemma C3_invalid_params_rejected_witness :
  validate (mk_params 200 1 1 0) = false /\
  apply_processing_parameters pillow_processor (mk_params 200 1 1 0) (loaded red_1x1)
  = (false, loaded red_1x1).
Proof.
  split; [vm_compute; reflexivity|].
  apply C3_invalid_params_rejected; vm_compute; reflexivity.
Defined.

Lemma C4_failed_apply_unchanged_witness :
  repository_array red_1x1 = true /\
  Forall edit_keeps_repository_arrays [EditGrayscale; EditCorrection linear_1; EditParams rotate_90] /\
  fst (apply_processing_parameters pillow_processor (mk_params 200 1 1 0)
         (run_edits pillow_processor [EditGrayscale; EditCorrection linear_1; EditParams rotate_90]
            (loaded red_1x1))) = false /\
  snd (apply_processing_parameters pillow_processor (mk_params 200 1 1 0)
         (run_edits pillow_processor [EditGrayscale; EditCorrection linear_1; EditParams rotate_90]
            (loaded red_1x1)))
  = run_edits pillow_processor [EditGrayscale; EditCorrection linear_1; EditParams rotate_90]
      (loaded red_1x1).
Proof.
  assert (Hd : repository_array red_1x1 = true) by reflexivity.
  assert (Hes : Forall edit_keeps_repository_arrays
                  [EditGrayscale; EditCorrection linear_1; EditParams rotate_90])
    by (repeat constructor; apply linear_keeps_repository).
  assert (Hf : fst (apply_processing_parameters pillow_processor (mk_params 200 1 1 0)
                 (run_edits pillow_processor
                    [EditGrayscale; EditCorrection linear_1; EditParams rotate_90]
                    (loaded red_1x1))) = false) by (vm_compute; reflexivity).
  split; [exact Hd|]; split; [exact Hes|]; split; [exact Hf|].
  exact (C4_failed_apply_unchanged red_1x1 false _ empty_service _ Hd Hes Hf).
Defined.

Lemma C6_rotate_four_quarter_turns_witness :
  ndarray_rectangular rgba_2x3 /\
  obind (rotate_image rgba_2x3 90) (fun a1 => obind (rotate_image a1 90) (fun a2 =>
    obind (rotate_image a2 90) (fun a3 => rotate_image a3 90))) = Some rgba_2x3 /\
  rotate_image rgba_2x3 90 = Some (rot90_array 1 rgba_2x3) /\
  (forall i j, (i < width rgba_2x3)%nat -> (j < height rgba_2x3)%nat ->
     pixel_at (rot90_array 1 rgba_2x3) i j = pixel_at rgba_2x3 j (width rgba_2x3 - 1 - i)).
Proof.
  assert (H : ndarray_rectangular rgba_2x3) by (vm_compute; repeat constructor).
  split; [exact H | apply C6_rotate_four_quarter_turns, H].
Defined.

Lemma C8_histogram_counts_witness :
  ndarray_wf rgba_2x3 /\
  (forall g, rgba_2x3 = Arr2 g ->
     exists hs, calculate_histogram rgba_2x3 = Some (mk_histogram None None None (Some hs)) /\
       length hs = 256%nat /\ sum_nat hs = (height rgba_2x3 * width rgba_2x3)%nat) /\
  (forall c g, rgba_2x3 = Arr3 c g -> (c = 3 \/ c = 4)%nat ->
     calculate_histogram rgba_2x3 =
       Some (mk_histogram (Some (np_histogram256 (channel_samples 0 g)))
                          (Some (np_histogram256 (channel_samples 1 g)))
                          (Some (np_histogram256 (channel_samples 2 g))) None) /\
     (forall k, (k < 3)%nat ->
        length (np_histogram256 (channel_samples k g)) = 256%nat /\
        sum_nat (np_histogram256 (channel_samples k g)) = (height rgba_2x3 * width rgba_2x3)%nat) /\
     calculate_histogram rgba_2x3 = calculate_histogram (Arr3 3 (map_grid (firstn 3) g))).
Proof.
  assert (H : ndarray_wf rgba_2x3) by (vm_compute; repeat constructor).
  split; [exact H | apply C8_histogram_counts, H].
Defined.

Lemma C9_brightness_primitive_witness :
  pil_mode_ok 3 = true /\
  adjust_brightness pillow_processor (Arr2 (mk_grid 1 [[100%Z]])) 200
  = Some (Arr2 (map_grid (fun x => clip_u8 (inject_Z x * (1 + 200 / 100)))
                         (mk_grid 1 [[100%Z]]))) /\
  adjust_brightness pillow_processor (Arr3 3 (mk_grid 1 [[[200; 0; 0]%Z]])) 200
  = Some (Arr3 3 (map_grid (pil_blend_pixel 3 0 (1 + 200 / 100))
                           (mk_grid 1 [[[200; 0; 0]%Z]]))).
Proof.
  split; [reflexivity|].
  apply C9_brightness_primitive; reflexivity.
Defined.

(* ------------------------------------------------------------------ *)
(** ** Further properties of the code *)

(** *** Rotation *)

Lemma rot90_array_rect (a : ndarray) :
  ndarray_rectangular a -> ndarray_rectangular (rot90_array 1 a).
Proof. destruct a as [g|c g]; cbn; intros H; apply (rot90_shape _ H). Qed.

Lemma rot90_array_2 (a : ndarray) :
  ndarray_rectangular a -> rot90_array 2 a = rot90_array 1 (rot90_array 1 a).
Proof.
  destruct a as [g|c g]; cbn [ndarray_rectangular rot90_array]; intros H; f_equal.
  - apply (rot180_twice g 0%Z H).
  - apply (rot180_twice g [] H).
Qed.

Lemma rot90_array_3 (a : ndarray) :
  ndarray_rectangular a ->
  rot90_array 3 a = rot90_array 1 (rot90_array 1 (rot90_array 1 a)).
Proof.
  destruct a as [g|c g]; cbn [ndarray_rectangular rot90_array]; intros H; f_equal.
  - apply (rot270_thrice g 0%Z H).
  - apply (rot270_thrice g [] H).
Qed.

Lemma rot90_array_4 (a : ndarray) : rot90_array 4 a = a.
Proof. destruct a; reflexivity. Qed.

Lemma rot90_array_1_four (a : ndarray) :
  ndarray_rectangular a ->
  rot90_array 1 (rot90_array 1 (rot90_array 1 (rot90_array 1 a))) = a.
Proof.
  destruct a as [g|c g]; cbn [ndarray_rectangular rot90_array]; intros H; f_equal.
  - apply (rot90_four g 0%Z H).
  - apply (rot90_four g [] H).
Qed.

Lemma rot90_array_2_2 (a : ndarray) : rot90_array 2 (rot90_array 2 a) = a.
Proof. destruct a; cbn [rot90_array]; rewrite rot180_involutive; reflexivity. Qed.

Lemma np_rot90_wf {A} (k : Z) (g : grid A) : grid_wf g -> grid_wf (np_rot90 k g).
Proof.
  intros H; unfold np_rot90.
  destruct (_ =? 0)%Z; [exact H|].
  destruct (_ =? 2)%Z; [exact (proj1 (rot180_shape g H))|].
  destruct (_ =? 1)%Z; [exact (proj1 (rot90_shape g H)) | exact (proj1 (rot270_shape g H))].
Qed.

Lemma rot90_array_wf (k : Z) (a : ndarray) : ndarray_wf a -> ndarray_wf (rot90_array k a).
Proof.
  destruct a as [g|c g]; cbn [ndarray_wf rot90_array]; intros [Hr Hs];
    split; [apply np_rot90_wf, Hr | apply Forall_np_rot90, Hs | apply np_rot90_wf, Hr
           | apply Forall_np_rot90, Hs].
Qed.

Lemma rot90_array_shape_1 (a : ndarray) :
  ndarray_rectangular a -> shape (rot90_array 1 a) = [width a; height a] ++ skipn 2 (shape a).
Proof.
  destruct a as [g|c g]; cbn [ndarray_rectangular rot90_array shape width height skipn app];
    intros H; destruct (rot90_shape g H) as [_ [W L]]; rewrite W, L; reflexivity.
Qed.

Lemma rot90_array_shape_2 (a : ndarray) :
  ndarray_rectangular a -> shape (rot90_array 2 a) = shape a.
Proof.
  destruct a as [g|c g]; cbn [ndarray_rectangular rot90_array shape];
    intros H; destruct (rot180_shape g H) as [_ [W L]]; rewrite W, L; reflexivity.
Qed.

Lemma rot90_array_shape_3 (a : ndarray) :
  ndarray_rectangular a -> shape (rot90_array 3 a) = [width a; height a] ++ skipn 2 (shape a).
Proof.
  destruct a as [g|c g]; cbn [ndarray_rectangular rot90_array shape width height skipn app];
    intros H; destruct (rot270_shape g H) as [_ [W L]]; rewrite W, L; reflexivity.
Qed.

Lemma ndarray_wf_rect (a : ndarray) : ndarray_wf a -> ndarray_rectangular a.
Proof. destruct a; intros [H _]; exact H. Qed.

(** X1.  [rotate_image] succeeds exactly for the angle 0 and for the angles
    congruent to 90, 180 or 270 modulo 360; it raises for every other angle,
    including the non-zero multiples of 360. *)
Theorem X1_rotate_image_accepts (a : ndarray) (angle : Z) :
  rotate_image a angle <> None <-> angle = 0%Z \/ In (angle mod 360)%Z [90; 180; 270]%Z.
Proof.
  unfold rotate_image.
  pose proof (Z.mod_pos_bound angle 360 ltac:(lia)) as Hb.
  destruct (Z.eqb_spec angle 0) as [E0|E0];
    [split; [intros _; left; exact E0 | intros _; discriminate]|].
  destruct (Z.eqb_spec (angle mod 360) 90) as [E|E];
    [split; [intros _; right; cbn [In]; lia | intros _; discriminate]|].
  destruct (Z.eqb_spec (angle mod 360) 180) as [E'|E'];
    [split; [intros _; right; cbn [In]; lia | intros _; discriminate]|].
  destruct (Z.eqb_spec (angle mod 360) 270) as [E''|E''];
    [split; [intros _; right; cbn [In]; lia | intros _; discriminate]|].
  destruct (Z.eqb_spec (angle mod 360) 360) as [E'''|E''']; [lia|].
  split; [intros Hn; exfalso; apply Hn; reflexivity|].
  intros [Hz | Hin]; [contradiction|].
  cbn [In] in Hin; exfalso; destruct Hin as [?|[?|[?|[]]]]; lia.
Qed.

(** X2.  On a well-formed uint8 array, a successful [rotate_image] returns a
    well-formed array with the same number of dimensions and channels; height
    and width are exchanged for angles congruent to 90 or 270 and kept
    otherwise. *)
Theorem X2_rotate_image_shape (a a' : ndarray) (angle : Z) :
  ndarray_wf a -> rotate_image a angle = Some a' ->
  ndarray_wf a' /\
  shape a' = (if ((angle mod 360 =? 90) || (angle mod 360 =? 270))%Z
              then [width a; height a] ++ skipn 2 (shape a) else shape a).
Proof.
  intros Hwf Hr; pose proof (ndarray_wf_rect a Hwf) as Hrect.
  unfold rotate_image in Hr.
  destruct (Z.eqb_spec angle 0) as [->|E0];
    [injection Hr as <-; split; [exact Hwf | reflexivity]|].
  destruct (Z.eqb_spec (angle mod 360) 90) as [E|E].
  { injection Hr as <-; split; [apply rot90_array_wf, Hwf|].
    cbn [orb]; apply rot90_array_shape_1, Hrect. }
  destruct (Z.eqb_spec (angle mod 360) 180) as [E'|E'].
  { injection Hr as <-; split; [apply rot90_array_wf, Hwf|].
    rewrite E'; cbn [Z.eqb orb]; apply rot90_array_shape_2, Hrect. }
  destruct (Z.eqb_spec (angle mod 360) 270) as [E''|E''].
  { injection Hr as <-; split; [apply rot90_array_wf, Hwf|].
    cbn [orb]; apply rot90_array_shape_3, Hrect. }
  destruct (Z.eqb_spec (angle mod 360) 360) as [E'''|E''']; [|discriminate].
  injection Hr as <-; rewrite rot90_array_4; split; [exact Hwf | reflexivity].
Qed.

(** X3.  On a rectangular array, rotating by 180 is two rotations by 90 and
    rotating by 270 is three; a rotation by 90 followed by one by 270, or
    two rotations by 180, give back the array. *)
Theorem X3_rotate_image_compose (a : ndarray) :
  ndarray_rectangular a ->
  rotate_image a 180 = obind (rotate_image a 90) (fun a1 => rotate_image a1 90) /\
  rotate_image a 270 = obind (rotate_image a 90) (fun a1 =>
                         obind (rotate_image a1 90) (fun a2 => rotate_image a2 90)) /\
  obind (rotate_image a 90) (fun a1 => rotate_image a1 270) = Some a /\
  obind (rotate_image a 180) (fun a1 => rotate_image a1 180) = Some a.
Proof.
  intros H.
  assert (R180 : rotate_image a 180 = Some (rot90_array 2 a)) by reflexivity.
  assert (R270 : forall x, rotate_image x 270 = Some (rot90_array 3 x)) by reflexivity.
  rewrite R180, R270, !rotate_image_90; cbn [obind]; rewrite rotate_image_90.
  split; [|split; [|split]].
  - rewrite rot90_array_2 by exact H; reflexivity.
  - rewrite rot90_array_3 by exact H; reflexivity.
  - rewrite R270, rot90_array_3 by (apply rot90_array_rect, H).
    rewrite rot90_array_1_four by exact H; reflexivity.
  - assert (R180' : rotate_image (rot90_array 2 a) 180 = Some (rot90_array 2 (rot90_array 2 a)))
      by reflexivity.
    rewrite R180', rot90_array_2_2; reflexivity.
Qed.

(** *** Samples and pixels *)

Lemma clip_u8_range (v : Q) : (0 <= clip_u8 v <= 255)%Z.
Proof.
  unfold clip_u8; split.
  - change 0%Z with (Qfloor 0); apply Qfloor_resp_le, Q.le_max_l.
  - change 255%Z with (Qfloor 255); apply Qfloor_resp_le, Q.max_lub.
    + unfold Qle; simpl; lia.
    + apply Q.le_min_r.
Qed.

Lemma clip_u8_ok (v : Q) : sample_ok (clip_u8 v) = true.
Proof.
  destruct (clip_u8_range v); unfold sample_ok; apply andb_true_intro; split;
    apply Z.leb_le; assumption.
Qed.

Lemma clip_u8_compat (v w : Q) : v == w -> clip_u8 v = clip_u8 w.
Proof. intros H; unfold clip_u8; apply Qfloor_comp; rewrite H; reflexivity. Qed.

Lemma clip_u8_Z (x : Z) : (0 <= x <= 255)%Z -> clip_u8 (inject_Z x) = x.
Proof.
  intros [H1 H2]; unfold clip_u8.
  rewrite (Qfloor_comp _ (inject_Z x)); [apply Qfloor_Z|].
  rewrite Q.min_l by (unfold Qle; simpl; lia).
  rewrite Q.max_r by (unfold Qle; simpl; lia).
  reflexivity.
Qed.

Lemma sample_ok_range (x : Z) : sample_ok x = true -> (0 <= x <= 255)%Z.
Proof.
  unfold sample_ok; intros H; apply andb_prop in H as [H1 H2].
  apply Z.leb_le in H1; apply Z.leb_le in H2; lia.
Qed.

Lemma nth_sample_range (px : list Z) k :
  Forall (fun x => sample_ok x = true) px -> (0 <= nth k px 0 <= 255)%Z.
Proof.
  intros H; destruct (nth_in_or_default k px 0%Z) as [Hin | ->]; [|lia].
  rewrite Forall_forall in H; apply sample_ok_range, H, Hin.
Qed.

Lemma range_sample_ok (x : Z) : (0 <= x <= 255)%Z -> sample_ok x = true.
Proof.
  intros [H1 H2]; unfold sample_ok; apply andb_true_intro; split; apply Z.leb_le; assumption.
Qed.

(** The luma of the numpy grayscale conversion stays in [0, 255]. *)
Lemma np_luma_ok (px : list Z) :
  Forall (fun x => sample_ok x = true) px -> sample_ok (np_luma px) = true.
Proof.
  intros H; apply range_sample_ok.
  pose proof (nth_sample_range px 0 H) as H0.
  pose proof (nth_sample_range px 1 H) as H1.
  pose proof (nth_sample_range px 2 H) as H2.
  unfold np_luma; split.
  - apply (Z.le_trans _ (Qfloor 0)); [apply Z.le_refl|]; apply Qfloor_resp_le.
    unfold Qle, Qplus, Qmult; simpl; lia.
  - apply (Z.le_trans _ (Qfloor 255)); [|apply Z.le_refl]; apply Qfloor_resp_le.
    unfold Qle, Qplus, Qmult; simpl; lia.
Qed.

(** Pillow's RGB to L conversion stays in [0, 255]. *)
Lemma pil_luma_ok (c : nat) (px : list Z) :
  Forall (fun x => sample_ok x = true) px -> sample_ok (pil_luma c px) = true.
Proof.
  intros H; apply range_sample_ok.
  pose proof (nth_sample_range px 0 H) as H0.
  pose proof (nth_sample_range px 1 H) as H1.
  pose proof (nth_sample_range px 2 H) as H2.
  unfold pil_luma; destruct (c =? 2)%nat; [exact H0|].
  rewrite Z.shiftr_div_pow2 by lia; change (2 ^ 16)%Z with 65536%Z.
  match goal with |- (0 <= ?n / _ <= _)%Z =>
    assert (Hlt : (n / 65536 < 256)%Z) by (apply Z.div_lt_upper_bound; lia) end.
  split; [apply Z.div_pos; lia | lia].
Qed.

Lemma zip_with_length {A B C} (h : A -> B -> C) l1 l2 :
  length (zip_with h l1 l2) = Nat.min (length l1) (length l2).
Proof. revert l2; induction l1 as [|x l1 IH]; intros [|y l2]; simpl; auto. Qed.

Lemma Forall_zip_with {A B C} (P : C -> Prop) (h : A -> B -> C) l1 l2 :
  (forall x y, P (h x y)) -> Forall P (zip_with h l1 l2).
Proof. intros H; revert l2; induction l1 as [|x l1 IH]; intros [|y l2]; simpl; auto. Qed.

Lemma zip_with_right {A B} (h : A -> B -> B) l1 l2 :
  length l1 = length l2 -> (forall x y, In y l2 -> h x y = y) -> zip_with h l1 l2 = l2.
Proof.
  revert l2; induction l1 as [|x l1 IH]; intros [|y l2] Hl H; simpl in *; try discriminate; auto.
  rewrite H by auto; f_equal; apply IH; auto.
Qed.

Lemma zip_with_left {A B} (h : A -> B -> A) l1 l2 :
  length l1 = length l2 -> (forall x y, In x l1 -> h x y = x) -> zip_with h l1 l2 = l1.
Proof.
  revert l2; induction l1 as [|x l1 IH]; intros [|y l2] Hl H; simpl in *; try discriminate; auto.
  rewrite H by auto; f_equal; apply IH; auto.
Qed.

Lemma Forall_skipn {A} (P : A -> Prop) n (l : list A) : Forall P l -> Forall P (skipn n l).
Proof.
  intros H; rewrite <- (firstn_skipn n l) in H; apply Forall_app in H as [_ H]; exact H.
Qed.

Lemma pil_degenerate_length (c : nat) (dv : Z) (px : list Z) :
  pil_mode_ok c = true -> length px = c -> length (pil_degenerate c dv px) = c.
Proof.
  intros Hc Hl; unfold pil_degenerate; rewrite length_app, repeat_length, length_skipn, Hl.
  unfold pil_mode_ok, pil_color_bands in *.
  destruct c as [|[|[|[|[|c]]]]]; simpl in *; try discriminate; lia.
Qed.

(** A pixel blended by Pillow keeps its number of samples, all in [0, 255]. *)
Lemma pil_blend_pixel_wf (c : nat) (dv : Z) (f : Q) (px : list Z) :
  pil_mode_ok c = true -> length px = c ->
  length (pil_blend_pixel c dv f px) = c /\
  Forall (fun x => sample_ok x = true) (pil_blend_pixel c dv f px).
Proof.
  intros Hc Hl; unfold pil_blend_pixel; split.
  - rewrite zip_with_length, pil_degenerate_length by assumption; lia.
  - apply Forall_zip_with; intros; apply clip_u8_ok.
Qed.

(** [Image.blend(degenerate, image, 1.0)] is the image. *)
Lemma pil_blend_pixel_1 (c : nat) (dv : Z) (f : Q) (px : list Z) :
  f == 1 -> pil_mode_ok c = true -> length px = c ->
  Forall (fun x => sample_ok x = true) px -> pil_blend_pixel c dv f px = px.
Proof.
  intros Hf Hc Hl Hs; unfold pil_blend_pixel.
  apply zip_with_right; [rewrite pil_degenerate_length; auto|].
  intros d x Hx; unfold pil_blend_sample.
  rewrite (clip_u8_compat _ (inject_Z x)) by (rewrite Hf; ring).
  apply clip_u8_Z, sample_ok_range; rewrite Forall_forall in Hs; apply Hs, Hx.
Qed.

Lemma zip_with_map_left {A B C} (h : A -> B -> C) (k : A -> C) l1 l2 :
  length l1 = length l2 -> (forall x y, h x y = k x) -> zip_with h l1 l2 = map k l1.
Proof.
  revert l2; induction l1 as [|x l1 IH]; intros [|y l2] Hl H; simpl in *; try discriminate; auto.
  rewrite H; f_equal; apply IH; auto.
Qed.

(** [Image.blend(degenerate, image, 0.0)] is the degenerate image. *)
Lemma pil_blend_pixel_0 (c : nat) (dv : Z) (f : Q) (px : list Z) :
  f == 0 -> pil_mode_ok c = true -> length px = c ->
  Forall (fun x => sample_ok x = true) px ->
  pil_blend_pixel c dv f px = pil_degenerate c (clip_u8 (inject_Z dv)) px.
Proof.
  intros Hf Hc Hl Hs; unfold pil_blend_pixel.
  rewrite (zip_with_map_left _ (fun d => clip_u8 (inject_Z d)))
    by (rewrite ?pil_degenerate_length; auto;
        intros d x; unfold pil_blend_sample; apply clip_u8_compat; rewrite Hf; ring).
  unfold pil_degenerate; rewrite map_app, map_repeat; f_equal.
  transitivity (map (fun x => x) (skipn (pil_color_bands c) px)); [|apply map_id].
  apply map_ext_in; intros x Hx; apply clip_u8_Z, sample_ok_range.
  apply (Forall_skipn _ (pil_color_bands c)) in Hs; rewrite Forall_forall in Hs; auto.
Qed.

Lemma map_grid_wf {A B} (f : A -> B) (g : grid A) : grid_wf g -> grid_wf (map_grid f g).
Proof.
  unfold grid_wf, map_grid; cbn [grows gwidth]; intros H.
  apply Forall_map; eapply Forall_impl; [|exact H]; intros r Hr; rewrite length_map; exact Hr.
Qed.

Lemma map_grid_Forall {A B} (P : A -> Prop) (R : B -> Prop) (f : A -> B) (g : grid A) :
  (forall x, P x -> R (f x)) -> Forall (Forall P) (grows g) ->
  Forall (Forall R) (grows (map_grid f g)).
Proof.
  intros Hf H; unfold map_grid; cbn [grows].
  apply Forall_map; eapply Forall_impl; [|exact H]; intros r Hr.
  apply Forall_map; eapply Forall_impl; [|exact Hr]; exact Hf.
Qed.

Lemma map_grid_ext_on {A B} (P : A -> Prop) (f h : A -> B) (g : grid A) :
  (forall x, P x -> f x = h x) -> Forall (Forall P) (grows g) -> map_grid f g = map_grid h g.
Proof.
  intros Hf H; unfold map_grid; f_equal.
  apply map_ext_in; intros r Hr; apply map_ext_in; intros x Hx.
  rewrite Forall_forall in H; specialize (H r Hr); rewrite Forall_forall in H; auto.
Qed.

Lemma map_grid_ext {A B} (f h : A -> B) (g : grid A) :
  (forall x, f x = h x) -> map_grid f g = map_grid h g.
Proof. intros Hf; unfold map_grid; f_equal; apply map_ext; intros r; apply map_ext, Hf. Qed.

Lemma map_grid_id_on {A} (P : A -> Prop) (f : A -> A) (g : grid A) :
  (forall x, P x -> f x = x) -> Forall (Forall P) (grows g) -> map_grid f g = g.
Proof.
  intros Hf H; rewrite (map_grid_ext_on P f (fun x => x) g Hf H).
  destruct g as [w m]; unfold map_grid; cbn [grows gwidth]; f_equal.
  rewrite (map_ext (map (fun x => x)) (fun r => r)) by apply map_id; apply map_id.
Qed.

Lemma np_linear_sample_ok (f : Q) (x : Z) : sample_ok (np_linear_sample f x) = true.
Proof.
  apply range_sample_ok; unfold np_linear_sample; split.
  - apply (Z.le_trans _ (Qfloor (0 * 255))); [apply Z.le_refl|].
    apply Qfloor_resp_le, Qmult_le_compat_r; [apply Q.le_max_l | unfold Qle; simpl; lia].
  - apply (Z.le_trans _ (Qfloor (1 * 255))); [|apply Z.le_refl].
    apply Qfloor_resp_le, Qmult_le_compat_r; [|unfold Qle; simpl; lia].
    apply Q.max_lub; [unfold Qle; simpl; lia | apply Q.le_min_r].
Qed.

Lemma np_linear_sample_nonpos (f : Q) (x : Z) :
  (f <= 0)%Q -> (0 <= x)%Z -> np_linear_sample f x = 0%Z.
Proof.
  intros Hf Hx; unfold np_linear_sample.
  assert (Hv : (inject_Z x / 255 * f <= 0)%Q).
  { destruct f as [fn fd]; unfold Qle, Qmult, Qdiv, Qinv in *; simpl in *; nia. }
  rewrite (Qfloor_comp _ 0); [reflexivity|].
  rewrite Q.max_l; [ring|].
  apply (Qle_trans _ (inject_Z x / 255 * f)); [apply Q.le_min_l | exact Hv].
Qed.

(** *** [PillowImageProcessor] *)

(** X4.  [convert_to_grayscale] raises exactly for 3-D arrays whose channel
    count is neither 3 nor 4.  Its result is a 2-D array of the same height
    and width, which the conversion returns unchanged (converting twice is
    converting once); on a well-formed uint8 array the result is a
    well-formed uint8 array. *)
Theorem X4_convert_to_grayscale (a : ndarray) :
  (np_convert_to_grayscale a = None <-> exists c g, a = Arr3 c g /\ c <> 3 /\ c <> 4) /\
  (forall a', np_convert_to_grayscale a = Some a' ->
     ndim a' = 2 /\ height a' = height a /\ width a' = width a /\
     np_convert_to_grayscale a' = Some a' /\ (ndarray_wf a -> ndarray_wf a')).
Proof.
  destruct a as [g|c g]; cbn [np_convert_to_grayscale].
  - split; [split; [discriminate | intros (c & g' & E & _); discriminate]|].
    intros a' H; injection H as <-; repeat split; auto; apply H.
  - destruct ((c =? 3) || (c =? 4)) eqn:E.
    + split.
      * split; [discriminate|].
        intros (c' & g' & E' & H3 & H4); injection E' as <- <-.
        apply orb_true_iff in E as [E|E]; apply Nat.eqb_eq in E; contradiction.
      * intros a' H; injection H as <-; cbn [ndim height width map_grid grows gwidth].
        split; [reflexivity|]; split; [rewrite length_map; reflexivity|].
        split; [reflexivity|]; split; [reflexivity|].
        intros [Hr Hs]; split; [apply map_grid_wf, Hr|].
        eapply map_grid_Forall; [|exact Hs]; intros px [_ Hpx]; apply np_luma_ok, Hpx.
    + split; [|intros a' H; discriminate].
      split; [intros _|reflexivity].
      apply orb_false_iff in E as [E1 E2]; apply Nat.eqb_neq in E1, E2.
      exists c, g; auto.
Qed.

(** X5.  On a well-formed uint8 array (with 2, 3 or 4 channels if it is
    3-D), the neutral settings change nothing: brightness 0 and saturation
    1.0 return the array itself, and so does contrast 1.0 on a non-empty 3-D
    array. *)
Theorem X5_neutral_factors (a : ndarray) :
  ndarray_wf a -> (forall c g, a = Arr3 c g -> pil_mode_ok c = true) ->
  np_adjust_brightness a 0 = Some a /\ np_adjust_saturation a 1 = Some a /\
  (ndim a = 3 -> 0 < height a -> 0 < width a -> np_adjust_contrast a 1 = Some a).
Proof.
  destruct a as [g|c g]; cbn [ndarray_wf]; intros [Hr Hs] Hm.
  - split; [|split; [reflexivity | intros Hd; discriminate Hd]].
    unfold np_adjust_brightness, np_brightness_gray; do 2 f_equal.
    apply (map_grid_id_on (fun x => sample_ok x = true)); [|exact Hs].
    intros x Hx; rewrite (clip_u8_compat _ (inject_Z x)) by field.
    apply clip_u8_Z, sample_ok_range, Hx.
  - specialize (Hm c g eq_refl).
    unfold np_adjust_brightness, np_adjust_saturation, np_adjust_contrast, pil_enhance.
    rewrite Hm; cbn [negb].
    assert (Hid : forall dv f, f == 1 -> map_grid (pil_blend_pixel c dv f) g = g).
    { intros dv f Hf; eapply map_grid_id_on; [|exact Hs].
      intros px [Hl Hpx]; apply pil_blend_pixel_1; auto. }
    split; [rewrite Hid by field; reflexivity|].
    split; [|intros _ Hh Hw].
    + f_equal; f_equal; eapply map_grid_id_on; [|exact Hs].
      intros px [Hl Hpx]; apply pil_blend_pixel_1; auto; reflexivity.
    + rewrite Hid by reflexivity; reflexivity.
Qed.

(** X6.  On a well-formed uint8 array (with 2, 3 or 4 channels if it is
    3-D), the factor 0 gives the degenerate image: brightness -100 turns
    every sample of a 2-D array and every colour sample of a 3-D array to 0;
    saturation 0 replaces the colour samples of each pixel by the pixel's own
    luma; contrast 0 on a non-empty array gives every pixel the same value m
    in [0, 255] (every colour sample of a 3-D array).  The alpha channel is
    kept in all three. *)
Theorem X6_zero_factor (a : ndarray) :
  ndarray_wf a -> (forall c g, a = Arr3 c g -> pil_mode_ok c = true) ->
  np_adjust_brightness a (-100) =
    Some (match a with
          | Arr2 g => Arr2 (map_grid (fun _ => 0%Z) g)
          | Arr3 c g => Arr3 c (map_grid (pil_degenerate c 0) g)
          end) /\
  np_adjust_saturation a 0 =
    Some (match a with
          | Arr2 g => Arr2 g
          | Arr3 c g => Arr3 c (map_grid (fun px => pil_degenerate c (pil_luma c px) px) g)
          end) /\
  (0 < height a -> 0 < width a ->
   exists m, (0 <= m <= 255)%Z /\
     np_adjust_contrast a 0 =
       Some (match a with
             | Arr2 g => Arr2 (map_grid (fun _ => m) g)
             | Arr3 c g => Arr3 c (map_grid (pil_degenerate c m) g)
             end)).
Proof.
  destruct a as [g|c g]; cbn [ndarray_wf]; intros [Hr Hs] Hm.
  - split; [|split; [reflexivity|intros _ _]].
    + unfold np_adjust_brightness, np_brightness_gray; do 2 f_equal.
      apply map_grid_ext; intros x.
      rewrite (clip_u8_compat _ (inject_Z 0)) by field; reflexivity.
    + exists (clip_u8 (np_mean (concat (grows g)))); split; [apply clip_u8_range|].
      unfold np_adjust_contrast, np_contrast_gray; do 2 f_equal.
      apply map_grid_ext; intros x; apply clip_u8_compat; ring.
  - specialize (Hm c g eq_refl).
    unfold np_adjust_brightness, np_adjust_saturation, np_adjust_contrast, pil_enhance.
    rewrite Hm; cbn [negb].
    assert (H0 : forall (d : list Z -> Z) f, f == 0 ->
              map_grid (fun px => pil_blend_pixel c (d px) f px) g
              = map_grid (fun px => pil_degenerate c (clip_u8 (inject_Z (d px))) px) g).
    { intros d f Hf; eapply map_grid_ext_on; [|exact Hs].
      intros px [Hl Hpx]; apply pil_blend_pixel_0; auto. }
    split; [|split; [|intros Hh Hw]].
    + rewrite (H0 (fun _ => 0%Z)) by field; reflexivity.
    + rewrite H0 by reflexivity; do 2 f_equal.
      eapply map_grid_ext_on; [|exact Hs]; intros px [Hl Hpx].
      rewrite clip_u8_Z; [reflexivity|]; apply sample_ok_range, pil_luma_ok, Hpx.
    + exists (clip_u8 (inject_Z (pil_mean_luma c g))); split; [apply clip_u8_range|].
      rewrite (H0 (fun _ => pil_mean_luma c g)) by reflexivity; reflexivity.
Qed.

(** X7.  On a well-formed uint8 array, [adjust_brightness],
    [adjust_contrast] and [adjust_saturation], when they succeed, return a
    well-formed uint8 array of the same shape.  They never raise on a 2-D
    array; on a 3-D array each of them raises exactly when the channel count
    is not 2, 3 or 4 (Pillow has no mode for it). *)
Theorem X7_adjust_shape (a : ndarray) (f : Q) :
  ndarray_wf a ->
  (forall a', (np_adjust_brightness a f = Some a' \/ np_adjust_contrast a f = Some a' \/
               np_adjust_saturation a f = Some a') ->
     ndarray_wf a' /\ shape a' = shape a) /\
  (np_adjust_brightness a f = None <-> exists c g, a = Arr3 c g /\ pil_mode_ok c = false) /\
  (np_adjust_saturation a f = None <-> exists c g, a = Arr3 c g /\ pil_mode_ok c = false) /\
  (np_adjust_contrast a f = None <-> exists c g, a = Arr3 c g /\ pil_mode_ok c = false).
Proof.
  destruct a as [g|c g]; intros Hwf; pose proof Hwf as [Hr Hs].
  - assert (Hclip : forall h : Z -> Q,
               ndarray_wf (Arr2 (map_grid (fun x => clip_u8 (h x)) g)) /\
               shape (Arr2 (map_grid (fun x => clip_u8 (h x)) g)) = shape (Arr2 g)).
    { intros h; split; [split|].
      - apply map_grid_wf, Hr.
      - eapply map_grid_Forall; [|exact Hs]; intros; apply clip_u8_ok.
      - cbn; rewrite length_map; reflexivity. }
    split; [|split; [|split]].
    + intros a' [E|[E|E]]; cbn in E; injection E as <-; auto; apply Hclip.
    + split; [discriminate | intros (c & g' & E & _); discriminate].
    + split; [discriminate | intros (c & g' & E & _); discriminate].
    + split; [discriminate | intros (c & g' & E & _); discriminate].
  - assert (Hpx : forall e m, pil_mode_ok c = true ->
               ndarray_wf (Arr3 c (map_grid (fun px => pil_blend_pixel c (e px) m px) g)) /\
               shape (Arr3 c (map_grid (fun px => pil_blend_pixel c (e px) m px) g))
               = shape (Arr3 c g)).
    { intros e m Hc; split; [split|].
      - apply map_grid_wf, Hr.
      - eapply map_grid_Forall; [|exact Hs]; intros px [Hl _].
        apply pil_blend_pixel_wf; auto.
      - cbn; rewrite length_map; reflexivity. }
    unfold np_adjust_brightness, np_adjust_contrast, np_adjust_saturation, pil_enhance.
    destruct (pil_mode_ok c) eqn:Hc; cbn [negb].
    + split; [|split; [|split]].
      * intros a' [E|[E|E]].
        -- injection E as <-; apply (Hpx (fun _ => 0%Z)); reflexivity.
        -- injection E as <-; apply (Hpx (fun _ => pil_mean_luma c g)); reflexivity.
        -- injection E as <-; apply Hpx; reflexivity.
      * split; [discriminate | intros (c' & g' & E & H); injection E as <- <-; congruence].
      * split; [discriminate | intros (c' & g' & E & H); injection E as <- <-; congruence].
      * split; [discriminate | intros (c' & g' & E & H); injection E as <- <-; congruence].
    + split; [intros a' [E|[E|E]]; discriminate|].
      split; [|split]; (split; [intros _; exists c, g; auto | reflexivity]).
Qed.

(** X8.  [apply_linear_correction] never raises; on a well-formed uint8
    array it returns a well-formed uint8 array of the same shape, and a
    factor [<= 0] turns every sample to 0. *)
Theorem X8_linear_correction (a : ndarray) (factor : Q) :
  ndarray_wf a ->
  exists a', np_apply_linear_correction a factor = Some a' /\
    ndarray_wf a' /\ shape a' = shape a /\
    ((factor <= 0)%Q ->
     a' = match a with
          | Arr2 g => Arr2 (map_grid (fun _ => 0%Z) g)
          | Arr3 c g => Arr3 c (map_grid (map (fun _ => 0%Z)) g)
          end).
Proof.
  destruct a as [g|c g]; intros [Hr Hs]; eexists; (split; [reflexivity|]).
  - split; [split; [apply map_grid_wf, Hr|]|split].
    + eapply map_grid_Forall; [|exact Hs]; intros; apply np_linear_sample_ok.
    + cbn; rewrite length_map; reflexivity.
    + intros Hf; f_equal; eapply map_grid_ext_on; [|exact Hs]; intros x Hx.
      apply np_linear_sample_nonpos; [exact Hf | apply sample_ok_range, Hx].
  - split; [split; [apply map_grid_wf, Hr|]|split].
    + eapply map_grid_Forall; [|exact Hs]; intros px [Hl _]; split.
      * rewrite length_map; exact Hl.
      * apply Forall_forall; intros y Hy; apply in_map_iff in Hy as (x & <- & _).
        apply np_linear_sample_ok.
    + cbn; rewrite length_map; reflexivity.
    + intros Hf; f_equal; eapply map_grid_ext_on; [|exact Hs]; intros px [_ Hpx].
      apply map_ext_in; intros x Hx; apply np_linear_sample_nonpos; [exact Hf|].
      rewrite Forall_forall in Hpx; apply sample_ok_range, Hpx, Hx.
Qed.

(** *** [ImageService] *)

Lemma np_convert_some (a a' : ndarray) :
  np_convert_to_grayscale a = Some a' ->
  ndim a' = 2 /\ height a' = height a /\ width a' = width a /\
  np_convert_to_grayscale a' = Some a'.
Proof.
  destruct a as [g|c g]; cbn [np_convert_to_grayscale].
  - intros H; injection H as <-; auto.
  - destruct ((c =? 3) || (c =? 4)); [|discriminate].
    intros H; injection H as <-; cbn [ndim height width map_grid grows gwidth].
    rewrite length_map; auto.
Qed.

Lemma np_convert_none (a : ndarray) :
  np_convert_to_grayscale a = None <-> exists c g, a = Arr3 c g /\ c <> 3 /\ c <> 4.
Proof.
  destruct a as [g|c g]; cbn [np_convert_to_grayscale].
  - split; [discriminate | intros (c & g' & E & _); discriminate].
  - destruct ((c =? 3) || (c =? 4)) eqn:E.
    + split; [discriminate|].
      intros (c' & g' & E' & H3 & H4); injection E' as <- <-.
      apply orb_true_iff in E as [E|E]; apply Nat.eqb_eq in E; contradiction.
    + split; [intros _|reflexivity].
      apply orb_false_iff in E as [E1 E2]; apply Nat.eqb_neq in E1, E2.
      exists c, g; auto.
Qed.

(** A parameter set that only rotates, applied to a colour state with a
    base: the state becomes the base turned by the difference of the
    rotations. *)
Lemma apply_rotation_only (proc : processor) (r : Z) (s : service) (img : image) (b : ndarray) :
  current_image s = Some img -> base_image_data s = Some b -> is_gray s = false ->
  In r [0; 90; 180; 270]%Z ->
  apply_processing_parameters proc (mk_params 0 1 1 r) s =
  if (r - rotation (current_processing_params s) =? 0)%Z
  then (true, mk_service (Some (update_data img b)) false (mk_params 0 1 1 r) (Some b))
  else match rotate proc b (r - rotation (current_processing_params s)) with
       | Some b' => (true, mk_service (Some (update_data img b')) false (mk_params 0 1 1 r) (Some b'))
       | None => (false, s)
       end.
Proof.
  destruct s as [ci ig cp bi]; cbn [current_image base_image_data is_gray
    current_processing_params]; intros -> -> -> Hr.
  unfold apply_processing_parameters.
  replace (validate (mk_params 0 1 1 r)) with true
    by (destruct Hr as [<-|[<-|[<-|[<-|[]]]]]; reflexivity).
  cbn [current_image base_image_data is_gray current_processing_params
       brightness contrast saturation rotation].
  rewrite !Qeq_bool_refl_true; cbn [negb]; rewrite andb_false_r; cbn [obind stage_if].
  destruct (r - rotation cp =? 0)%Z; cbn [negb]; [reflexivity|].
  destruct (rotate proc b (r - rotation cp)); reflexivity.
Qed.

(** A rotation in [0; 90; 180; 270] as the number of quarter turns. *)
Lemma iter_rot90_plus4 (n : nat) (a : ndarray) :
  ndarray_rectangular a ->
  Nat.iter (n + 4) (rot90_array 1) a = Nat.iter n (rot90_array 1) a.
Proof.
  intros H; rewrite Nat.iter_add.
  change (Nat.iter 4 (rot90_array 1) a)
    with (rot90_array 1 (rot90_array 1 (rot90_array 1 (rot90_array 1 a)))).
  rewrite (rot90_array_1_four a H); reflexivity.
Qed.

Lemma iter_rot90_rect (n : nat) (a : ndarray) :
  ndarray_rectangular a -> ndarray_rectangular (Nat.iter n (rot90_array 1) a).
Proof.
  intros H; induction n as [|n IH]; cbn [Nat.iter]; [exact H | apply rot90_array_rect, IH].
Qed.

Lemma rotate_image_iter (a : ndarray) (angle : Z) :
  ndarray_rectangular a -> In angle [0; 90; 180; 270; -90; -180; -270]%Z ->
  rotate_image a angle = Some (Nat.iter (Z.to_nat ((angle mod 360) / 90)) (rot90_array 1) a).
Proof.
  intros H Ha; destruct Ha as [<-|[<-|[<-|[<-|[<-|[<-|[<-|[]]]]]]]].
  - reflexivity.
  - reflexivity.
  - transitivity (Some (rot90_array 2 a)); [reflexivity|].
    rewrite (rot90_array_2 a H); reflexivity.
  - transitivity (Some (rot90_array 3 a)); [reflexivity|].
    rewrite (rot90_array_3 a H); reflexivity.
  - transitivity (Some (rot90_array 3 a)); [reflexivity|].
    rewrite (rot90_array_3 a H); reflexivity.
  - transitivity (Some (rot90_array 2 a)); [reflexivity|].
    rewrite (rot90_array_2 a H); reflexivity.
  - reflexivity.
Qed.

Ltac in_list := cbn; repeat (first [left; reflexivity | right]).

Lemma rotation_step (d : ndarray) (r r' : Z) :
  ndarray_rectangular d -> In r [0; 90; 180; 270]%Z -> In r' [0; 90; 180; 270]%Z ->
  (r' - r =? 0)%Z = false ->
  rotate_image (Nat.iter (Z.to_nat ((r mod 360) / 90)) (rot90_array 1) d) (r' - r)
  = Some (Nat.iter (Z.to_nat ((r' mod 360) / 90)) (rot90_array 1) d).
Proof.
  intros Hd Hr Hr' Hne.
  destruct Hr as [<-|[<-|[<-|[<-|[]]]]]; destruct Hr' as [<-|[<-|[<-|[<-|[]]]]];
    try discriminate Hne;
    (rewrite rotate_image_iter; [|apply iter_rot90_rect, Hd | in_list]);
    f_equal; rewrite <- Nat.iter_add;
    first [reflexivity | exact (iter_rot90_plus4 0 d Hd) | exact (iter_rot90_plus4 1 d Hd)
          | exact (iter_rot90_plus4 2 d Hd)].
Qed.

(** With rotations in [0; 90; 180; 270] the rotation difference is always
    accepted by [rotate_image]. *)
Lemma apply_rotation_pillow (r : Z) (t : service) (img : image) (b : ndarray) :
  current_image t = Some img -> base_image_data t = Some b -> is_gray t = false ->
  In r [0; 90; 180; 270]%Z -> In (rotation (current_processing_params t)) [0; 90; 180; 270]%Z ->
  exists b', rotate_image b (r - rotation (current_processing_params t)) = Some b' /\
    apply_processing_parameters pillow_processor (mk_params 0 1 1 r) t =
    (true, mk_service (Some (update_data img b')) false (mk_params 0 1 1 r) (Some b')).
Proof.
  intros Hc Hb Hg Hr Ht; rewrite (apply_rotation_only _ r t img b Hc Hb Hg Hr).
  destruct (r - rotation (current_processing_params t) =? 0)%Z eqn:E.
  - apply Z.eqb_eq in E; rewrite E; exists b; split; reflexivity.
  - revert E; cbn [rotate pillow_processor].
    destruct Hr as [<-|[<-|[<-|[<-|[]]]]]; destruct Ht as [<-|[<-|[<-|[<-|[]]]]];
      intros E; try discriminate E; eexists; split; reflexivity.
Qed.

Lemma last_cons_default {A} (a : A) (l : list A) (d : A) : last (a :: l) d = last l a.
Proof.
  revert a d; induction l as [|b l IH]; intros a d; [reflexivity|].
  change (last (b :: l) d = last (b :: l) a); rewrite !IH; reflexivity.
Qed.

Lemma Forall_last {A} (P : A -> Prop) (l : list A) (d : A) :
  P d -> Forall P l -> P (last l d).
Proof.
  revert d; induction l as [|a l IH]; intros d Hd Hl; [exact Hd|].
  inversion Hl; subst; rewrite last_cons_default; apply IH; assumption.
Qed.

Lemma rotation_edits (d : ndarray) (rs : list Z) (t : service) (r : Z) (img : image) :
  ndarray_rectangular d -> In r [0; 90; 180; 270]%Z ->
  Forall (fun r => In r [0; 90; 180; 270]%Z) rs ->
  current_image t = Some img ->
  current_data img = Nat.iter (Z.to_nat ((r mod 360) / 90)) (rot90_array 1) d ->
  base_image_data t = Some (Nat.iter (Z.to_nat ((r mod 360) / 90)) (rot90_array 1) d) ->
  is_gray t = false -> current_processing_params t = mk_params 0 1 1 r ->
  exists img',
    current_image (run_edits pillow_processor (map (fun r => EditParams (mk_params 0 1 1 r)) rs) t)
      = Some img' /\
    current_data img' = Nat.iter (Z.to_nat ((last rs r mod 360) / 90)) (rot90_array 1) d /\
    base_image_data (run_edits pillow_processor (map (fun r => EditParams (mk_params 0 1 1 r)) rs) t)
      = Some (Nat.iter (Z.to_nat ((last rs r mod 360) / 90)) (rot90_array 1) d) /\
    is_gray (run_edits pillow_processor (map (fun r => EditParams (mk_params 0 1 1 r)) rs) t) = false /\
    current_processing_params
      (run_edits pillow_processor (map (fun r => EditParams (mk_params 0 1 1 r)) rs) t)
      = mk_params 0 1 1 (last rs r).
Proof.
  intros Hd; revert t r img; induction rs as [|r1 rs IH];
    intros t r img Hr Hrs Hc Hcd Hb Hg Hp; cbn [map run_edits].
  - exists img; cbn [last]; auto.
  - inversion Hrs as [|? ? Hr1 Hrs']; subst.
    rewrite last_cons_default; cbn [run_edit].
    rewrite (apply_rotation_only pillow_processor r1 t img _ Hc Hb Hg Hr1), Hp; cbn [rotation].
    destruct (r1 - r =? 0)%Z eqn:E.
    + apply Z.eqb_eq in E; assert (r1 = r) by lia; subst r1.
      apply (IH _ r (update_data img (Nat.iter (Z.to_nat ((r mod 360) / 90)) (rot90_array 1) d)));
        auto.
    + cbn [rotate pillow_processor]; rewrite (rotation_step d r r1 Hd Hr Hr1 E).
      apply (IH _ r1
        (update_data img (Nat.iter (Z.to_nat ((r1 mod 360) / 90)) (rot90_array 1) d))); auto.
Qed.

Lemma rotate_image_valid (a : ndarray) (r : Z) :
  In r [0; 90; 180; 270]%Z -> exists a', rotate_image a r = Some a'.
Proof. intros [<-|[<-|[<-|[<-|[]]]]]; eexists; reflexivity. Qed.

Lemma apply_same_rotation (proc : processor) (p : params) (t : service) (img : image) (b : ndarray) :
  current_image t = Some img -> base_image_data t = Some b ->
  rotation p = rotation (current_processing_params t) ->
  base_image_data (snd (apply_processing_parameters proc p t)) = Some b /\
  is_gray (snd (apply_processing_parameters proc p t)) = is_gray t /\
  (current_processing_params (snd (apply_processing_parameters proc p t))
     = current_processing_params t \/
   current_processing_params (snd (apply_processing_parameters proc p t))
     = mk_params (brightness p) (contrast p) (saturation p) (rotation p)).
Proof.
  intros Hc Hb Hr; unfold apply_processing_parameters; rewrite Hc, Hb.
  destruct (negb (validate p)); [cbn [snd]; auto|].
  rewrite Hr, Z.sub_diag; cbn [negb Z.eqb].
  destruct (obind _ _) as [d3|]; [|cbn; auto].
  destruct (stage_if _ _ d3); cbn; auto.
Qed.

(** X10.  Rotation is absolute: after loading a rectangular array and
    applying any sequence of parameter sets that only rotate (brightness 0,
    contrast 1, saturation 1, rotations in [0; 90; 180; 270]), the base and
    the current data are the loaded array turned by the last rotation, and
    that rotation is the stored one. *)
Theorem X10_rotation_absolute (d : ndarray) (info_gray : bool) (s : service) (rs : list Z) :
  ndarray_rectangular d -> Forall (fun r => In r [0; 90; 180; 270]%Z) rs ->
  let s' := run_edits pillow_processor (map (fun r => EditParams (mk_params 0 1 1 r)) rs)
              (snd (load_image (Some (new_image d info_gray)) s)) in
  base_image_data s' = rotate_image d (last rs 0%Z) /\
  option_map current_data (current_image s') = rotate_image d (last rs 0%Z) /\
  current_processing_params s' = mk_params 0 1 1 (last rs 0%Z).
Proof.
  intros Hd Hrs s'.
  destruct (rotation_edits d rs (snd (load_image (Some (new_image d info_gray)) s)) 0
              (new_image d info_gray) Hd ltac:(in_list) Hrs eq_refl eq_refl eq_refl eq_refl eq_refl)
    as (img' & Hc & Hcd & Hb & _ & Hp).
  assert (Hl : In (last rs 0%Z) [0; 90; 180; 270]%Z)
    by (apply (Forall_last (fun r => In r [0; 90; 180; 270]%Z)); [in_list | exact Hrs]).
  rewrite (rotate_image_iter d _ Hd) by (cbn in Hl |- *; tauto).
  unfold s'; rewrite Hb, Hc, Hp; cbn [option_map]; rewrite Hcd; auto.
Qed.

(** X11.  [reset_processing_params] sets the parameters back to the
    defaults but keeps the base, which is already turned: after loading,
    rotating by [r1], resetting the parameters and rotating by [r2], the base
    and the current data are the loaded array turned by [r1] and then by
    [r2], while the stored rotation is [r2]. *)
Theorem X11_reset_params_keeps_rotation (d : ndarray) (info_gray : bool) (s : service)
    (r1 r2 : Z) :
  In r1 [0; 90; 180; 270]%Z -> In r2 [0; 90; 180; 270]%Z ->
  let s1 := run_edit pillow_processor (EditParams (mk_params 0 1 1 r1))
              (snd (load_image (Some (new_image d info_gray)) s)) in
  let s3 := run_edit pillow_processor (EditParams (mk_params 0 1 1 r2))
              (snd (reset_processing_params s1)) in
  fst (reset_processing_params s1) = true /\
  base_image_data s3 = obind (rotate_image d r1) (fun x => rotate_image x r2) /\
  option_map current_data (current_image s3) = base_image_data s3 /\
  current_processing_params s3 = mk_params 0 1 1 r2.
Proof.
  intros H1 H2 s1 s3; unfold s3, s1; cbn [run_edit].
  destruct (apply_rotation_pillow r1 (snd (load_image (Some (new_image d info_gray)) s))
              (new_image d info_gray) d eq_refl eq_refl eq_refl H1 ltac:(in_list))
    as (b1 & Hb1 & E1).
  rewrite E1; cbn [snd reset_processing_params current_image is_gray base_image_data].
  destruct (apply_rotation_pillow r2
              (mk_service (Some (update_data (new_image d info_gray) b1)) false default_params
                 (Some b1)) (update_data (new_image d info_gray) b1) b1
              eq_refl eq_refl eq_refl H2 ltac:(in_list)) as (b2 & Hb2 & E2).
  rewrite E2; cbn in Hb1, Hb2 |- *.
  rewrite Z.sub_0_r in Hb1, Hb2; rewrite Hb1; cbn [obind]; rewrite Hb2; auto.
Qed.

(** X12.  A correction (linear, logarithmic or gamma) works on the base
    (or on the current data when there is no base yet).  When it raises, the
    call returns [False] and the state is unchanged.  When it succeeds, the
    call returns [True] and the corrected array becomes the base, whether or
    not re-applying the stored parameters succeeds; the grayscale flag and
    the stored parameters are kept, and with neutral brightness, contrast and
    saturation the current data is the corrected array. *)
Theorem X12_correction_commits (proc : processor) (correct : ndarray -> option ndarray)
    (s : service) (img : image) :
  current_image s = Some img ->
  let base := match base_image_data s with Some b => b | None => current_data img end in
  (correct base = None -> apply_correction proc correct s = (false, s)) /\
  (forall c, correct base = Some c ->
     fst (apply_correction proc correct s) = true /\
     base_image_data (snd (apply_correction proc correct s)) = Some c /\
     is_gray (snd (apply_correction proc correct s)) = is_gray s /\
     current_processing_params (snd (apply_correction proc correct s))
       = current_processing_params s /\
     (Qeq_bool (brightness (current_processing_params s)) 0
      && Qeq_bool (contrast (current_processing_params s)) 1
      && Qeq_bool (saturation (current_processing_params s)) 1 = true ->
      current_image (snd (apply_correction proc correct s)) = Some (update_data img c))).
Proof.
  intros Hc base; unfold base; unfold apply_correction; rewrite Hc; cbv beta iota zeta.
  split; [intros HN; rewrite HN; reflexivity|].
  intros c HS; rewrite HS; cbn [current_processing_params set_base].
  destruct (negb _ || negb _ || negb _) eqn:En.
  - destruct (apply_same_rotation proc (current_processing_params s) (set_base s c) img c
                Hc eq_refl eq_refl) as (Hb & Hg & Hp).
    cbn [fst snd]; split; [reflexivity|]; split; [exact Hb|]; split; [exact Hg|].
    split; [destruct Hp as [Hp|Hp]; rewrite Hp;
            [reflexivity | destruct (current_processing_params s); reflexivity]|].
    intros Hn; exfalso; revert En Hn.
    destruct (Qeq_bool (brightness _) 0), (Qeq_bool (contrast _) 1),
      (Qeq_bool (saturation _) 1); cbn; intros H H'; discriminate.
  - cbn; auto.
Qed.

(** X14.  Right after loading, [get_histogram] is the histogram of the
    loaded array, and [get_original_histogram] stays that histogram whatever
    edits follow (grayscale conversion, parameters, corrections, resets). *)
Theorem X14_original_histogram_stable (proc : processor) (d : ndarray) (info_gray : bool)
    (es : list edit) (s : service) :
  get_histogram (snd (load_image (Some (new_image d info_gray)) s)) = calculate_histogram d /\
  get_original_histogram (run_edits proc es (snd (load_image (Some (new_image d info_gray)) s)))
    = calculate_histogram d.
Proof.
  split; [reflexivity|].
  destruct (run_edits_keeps_image proc es (snd (load_image (Some (new_image d info_gray)) s))
              (new_image d info_gray)) as (img & Hc & Ho & _).
  { exists (new_image d info_gray); auto. }
  unfold get_original_histogram; rewrite Hc, Ho; reflexivity.
Qed.

(** X16.  With [PillowImageProcessor], [convert_to_grayscale] of the service
    fails exactly when the current data is 3-D with a channel count other
    than 3 or 4, and then leaves the state unchanged.  On success it sets
    the grayscale flag, keeps the base and the parameters, replaces the
    current data by a 2-D array of the same height and width, and a second
    call returns [True] with the same state. *)
Theorem X16_service_grayscale (s : service) (img : image) :
  current_image s = Some img ->
  (fst (service_convert_to_grayscale pillow_processor s) = false <->
     exists c g, current_data img = Arr3 c g /\ c <> 3 /\ c <> 4) /\
  (fst (service_convert_to_grayscale pillow_processor s) = false ->
     snd (service_convert_to_grayscale pillow_processor s) = s) /\
  (fst (service_convert_to_grayscale pillow_processor s) = true ->
     let s' := snd (service_convert_to_grayscale pillow_processor s) in
     is_gray s' = true /\ base_image_data s' = base_image_data s /\
     current_processing_params s' = current_processing_params s /\
     (exists d', current_image s' = Some (update_data img d') /\ ndim d' = 2 /\
        height d' = height (current_data img) /\ width d' = width (current_data img)) /\
     service_convert_to_grayscale pillow_processor s' = (true, s')).
Proof.
  intros Hc; unfold service_convert_to_grayscale; rewrite Hc;
    cbn [convert_to_grayscale pillow_processor].
  destruct (np_convert_to_grayscale (current_data img)) as [d'|] eqn:E.
  - destruct (np_convert_some _ _ E) as (H2 & Hh & Hw & Hi).
    cbn [fst snd].
    split; [split; [discriminate | intros Hn; apply np_convert_none in Hn; congruence]|].
    split; [discriminate|]; intros _; cbv zeta.
    cbn [is_gray base_image_data current_processing_params current_image current_data update_data].
    split; [reflexivity|]; split; [reflexivity|]; split; [reflexivity|].
    split; [exists d'; auto|].
    rewrite Hi; reflexivity.
  - cbn [fst snd]; split; [split; [intros _; apply np_convert_none, E | reflexivity]|].
    split; [reflexivity | discriminate].
Qed.

(* ------------------------------------------------------------------ *)
(** ** Instances of the further properties *)

Lemma la_1x2_wf : ndarray_wf la_1x2.
Proof. vm_compute; repeat constructor. Qed.

Lemma red_1x1_wf : ndarray_wf red_1x1.
Proof. vm_compute; repeat constructor. Qed.

Lemma red_1x1_mode (c : nat) (g : grid (list Z)) : red_1x1 = Arr3 c g -> pil_mode_ok c = true.
Proof. intros E; injection E as <- _; reflexivity. Qed.

Lemma X2_rotate_image_shape_witness :
  ndarray_wf la_1x2 /\ rotate_image la_1x2 90 = Some (rot90_array 1 la_1x2) /\
  shape (rot90_array 1 la_1x2) = [2; 1; 2].
Proof.
  split; [exact la_1x2_wf|]; split; [reflexivity|].
  destruct (X2_rotate_image_shape la_1x2 (rot90_array 1 la_1x2) 90 la_1x2_wf eq_refl) as [_ Hs].
  exact Hs.
Defined.

Lemma X3_rotate_image_compose_witness :
  ndarray_rectangular la_1x2 /\
  obind (rotate_image la_1x2 90) (fun a1 => rotate_image a1 270) = Some la_1x2.
Proof.
  assert (H : ndarray_rectangular la_1x2) by (vm_compute; repeat constructor).
  split; [exact H | exact (proj1 (proj2 (proj2 (X3_rotate_image_compose la_1x2 H))))].
Defined.

Lemma X5_neutral_factors_witness :
  ndarray_wf red_1x1 /\ np_adjust_contrast red_1x1 1 = Some red_1x1.
Proof.
  split; [exact red_1x1_wf|].
  apply (proj2 (proj2 (X5_neutral_factors red_1x1 red_1x1_wf red_1x1_mode)));
    cbn; lia.
Defined.

Lemma X6_zero_factor_witness :
  ndarray_wf red_1x1 /\
  np_adjust_saturation red_1x1 0 =
    Some (Arr3 3 (map_grid (fun px => pil_degenerate 3 (pil_luma 3 px) px)
                           (mk_grid 1 [[[255; 0; 0]%Z]]))).
Proof.
  split; [exact red_1x1_wf|].
  exact (proj1 (proj2 (X6_zero_factor red_1x1 red_1x1_wf red_1x1_mode))).
Defined.

Lemma X7_adjust_shape_witness :
  ndarray_wf (Arr3 5 (mk_grid 1 [[[1; 2; 3; 4; 5]%Z]])) /\
  np_adjust_contrast (Arr3 5 (mk_grid 1 [[[1; 2; 3; 4; 5]%Z]])) 2 = None.
Proof.
  assert (H : ndarray_wf (Arr3 5 (mk_grid 1 [[[1; 2; 3; 4; 5]%Z]])))
    by (vm_compute; repeat constructor).
  split; [exact H|].
  apply (proj2 (proj2 (proj2 (proj2 (X7_adjust_shape _ 2 H))))).
  exists 5, (mk_grid 1 [[[1; 2; 3; 4; 5]%Z]]); split; reflexivity.
Defined.

Lemma X8_linear_correction_witness :
  ndarray_wf red_1x1 /\
  exists a', np_apply_linear_correction red_1x1 (-1) = Some a' /\
    ndarray_wf a' /\ shape a' = shape red_1x1 /\
    ((-1 <= 0)%Q -> a' = Arr3 3 (map_grid (map (fun _ => 0%Z)) (mk_grid 1 [[[255; 0; 0]%Z]]))).
Proof.
  split; [exact red_1x1_wf|].
  exact (X8_linear_correction red_1x1 (-1) red_1x1_wf).
Defined.

Lemma X10_rotation_absolute_witness :
  ndarray_rectangular la_1x2 /\ Forall (fun r => In r [0; 90; 180; 270]%Z) [90; 270; 180]%Z /\
  base_image_data
    (run_edits pillow_processor (map (fun r => EditParams (mk_params 0 1 1 r)) [90; 270; 180]%Z)
       (loaded la_1x2)) = rotate_image la_1x2 180.
Proof.
  assert (H1 : ndarray_rectangular la_1x2) by (vm_compute; repeat constructor).
  assert (H2 : Forall (fun r => In r [0; 90; 180; 270]%Z) [90; 270; 180]%Z)
    by (repeat (apply Forall_cons; [in_list|]); apply Forall_nil).
  split; [exact H1|]; split; [exact H2|].
  exact (proj1 (X10_rotation_absolute la_1x2 false empty_service _ H1 H2)).
Defined.

Lemma X11_reset_params_keeps_rotation_witness :
  In 90%Z [0; 90; 180; 270]%Z /\
  base_image_data
    (run_edit pillow_processor (EditParams rotate_90)
       (snd (reset_processing_params (run_edit pillow_processor (EditParams rotate_90)
                                        (loaded la_1x2)))))
  = obind (rotate_image la_1x2 90) (fun x => rotate_image x 90).
Proof.
  assert (H : In 90%Z [0; 90; 180; 270]%Z) by in_list.
  split; [exact H|].
  exact (proj1 (proj2 (X11_reset_params_keeps_rotation la_1x2 false empty_service 90 90 H H))).
Defined.

Lemma X12_correction_commits_witness :
  current_image (loaded red_1x1) = Some (new_image red_1x1 false) /\
  base_image_data (snd (apply_correction pillow_processor
                          (fun a => np_apply_linear_correction a 2) (loaded red_1x1)))
  = Some (Arr3 3 (map_grid (map (np_linear_sample 2)) (mk_grid 1 [[[255; 0; 0]%Z]]))).
Proof.
  split; [reflexivity|].
  exact (proj1 (proj2 (proj2 (X12_correction_commits pillow_processor
           (fun a => np_apply_linear_correction a 2) (loaded red_1x1) (new_image red_1x1 false)
           eq_refl) _ eq_refl))).
Defined.

Lemma X16_service_grayscale_witness :
  current_image (loaded la_1x2) = Some (new_image la_1x2 false) /\
  fst (service_convert_to_grayscale pillow_processor (loaded la_1x2)) = false /\
  snd (service_convert_to_grayscale pillow_processor (loaded la_1x2)) = loaded la_1x2.
Proof.
  split; [reflexivity|].
  destruct (X16_service_grayscale (loaded la_1x2) (new_image la_1x2 false) eq_refl)
    as [Hf [Hs _]].
  assert (E : fst (service_convert_to_grayscale pillow_processor (loaded la_1x2)) = false)
    by (apply Hf; exists 2, (mk_grid 2 [[[1; 2]; [3; 4]]%Z]); split; [reflexivity | lia]).
  split; [exact E | exact (Hs E)].
Defined.
